(** * The archive scraper of socorro: [socorro/cron/jobs/archivescraper.py]

    A shallow embedding of the cron job that walks archive.mozilla.org and
    records build information in the [crashstats_productversion] table,
    followed by the properties of it that the specification states.

    Conventions of the embedding.
    - A Python [str] is a [string]: a sequence of code points below 256.
      [str.isdigit] and [int] are written out for that range.
    - A Python [int] is a [Z].
    - The job runs in a state-and-exception monad over a [world]: the rows of
      the table, the statements sent to the database, the URLs requested
      from the archive, the log and the job's [successful_inserts] counter.
    - What the job imports from other packages (requests, pyquery, json,
      urljoin, the database cursor) is gathered in an [env] record. *)

From Stdlib Require Import String Ascii List ZArith NArith Bool Lia.
From Stdlib Require Import Permutation Sorted.
Import ListNotations.
Local Open Scope string_scope.
Local Open Scope Z_scope.

(** ** Python string operations used by the job *)

Module PyStr.

(** [s.startswith(p)] *)
Definition startswith (p s : string) : bool := String.prefix p s.

(** [sub in s] *)
Fixpoint contains (sub s : string) : bool :=
  String.prefix sub s ||
  match s with
  | EmptyString => false
  | String _ r => contains sub r
  end.

(** [s.endswith(suf)] *)
Fixpoint endswith (suf s : string) : bool :=
  String.eqb suf s ||
  match s with
  | EmptyString => false
  | String _ r => endswith suf r
  end.

(** [s.split(sep)] for a one-character separator *)
Fixpoint split (sep : ascii) (s : string) : list string :=
  match s with
  | EmptyString => [EmptyString]
  | String c r =>
      if Ascii.eqb c sep then EmptyString :: split sep r
      else match split sep r with
           | h :: t => String c h :: t
           | [] => [String c EmptyString]
           end
  end.

(** [s.split(sep)[0]] *)
Definition first_field (sep : ascii) (s : string) : string :=
  hd EmptyString (split sep s).

(** [s.rstrip(c)] for a one-character set *)
Fixpoint rstrip (c : ascii) (s : string) : string :=
  match s with
  | EmptyString => EmptyString
  | String a r =>
      let r' := rstrip c r in
      if Ascii.eqb a c && String.eqb r' EmptyString then EmptyString
      else String a r'
  end.

(** [s.replace(sub, '')] for a non-empty [sub]: the occurrences of [sub],
    found left to right without overlap, are dropped.  [skip] counts the
    characters of the current occurrence still to drop. *)
Fixpoint remove_from (sub : string) (skip : nat) (s : string) : string :=
  match s with
  | EmptyString => EmptyString
  | String c r =>
      match skip with
      | S k => remove_from sub k r
      | O => if String.prefix sub s
             then remove_from sub (Nat.pred (String.length sub)) r
             else String c (remove_from sub O r)
      end
  end.

Definition remove_all (sub s : string) : string := remove_from sub O s.

(** [s[n:]] *)
Fixpoint drop (n : nat) (s : string) : string :=
  match n, s with
  | O, _ => s
  | S k, EmptyString => EmptyString
  | S k, String _ r => drop k r
  end.

(** [s[:-1]] *)
Fixpoint drop_last (s : string) : string :=
  match s with
  | EmptyString => EmptyString
  | String c EmptyString => EmptyString
  | String c r => String c (drop_last r)
  end.

(** [''.join([c for c in s if p(c)])] *)
Fixpoint filter (p : ascii -> bool) (s : string) : string :=
  match s with
  | EmptyString => EmptyString
  | String c r => if p c then String c (filter p r) else filter p r
  end.

Definition code (c : ascii) : N := N_of_ascii c.

(** The decimal digits ['0'] to ['9']. *)
Definition is_decimal (c : ascii) : bool :=
  ((48 <=? code c) && (code c <=? 57))%N.

(** [c.isdigit()]: the decimal digits and, below 256, the superscript
    digits U+00B2, U+00B3 and U+00B9. *)
Definition isdigit (c : ascii) : bool :=
  is_decimal c ||
  (code c =? 178)%N || (code c =? 179)%N || (code c =? 185)%N.

(** The whitespace that [int] strips from both ends of a [str]: the ASCII
    whitespace (tab to carriage return, and the space) and, above 127, the
    whitespace U+0085 and U+00A0.  The separators U+001C to U+001F are
    whitespace for [str.isspace] but not for [int], which raises
    [ValueError] on them. *)
Definition int_space (c : ascii) : bool :=
  (((9 <=? code c) && (code c <=? 13)) || (code c =? 32) ||
   (code c =? 133) || (code c =? 160))%N.

Fixpoint lstrip_space (s : string) : string :=
  match s with
  | EmptyString => EmptyString
  | String c r => if int_space c then lstrip_space r else s
  end.

Fixpoint rstrip_space (s : string) : string :=
  match s with
  | EmptyString => EmptyString
  | String a r =>
      let r' := rstrip_space r in
      if int_space a && String.eqb r' EmptyString then EmptyString
      else String a r'
  end.

Definition digit_value (c : ascii) : N := (code c - 48)%N.

(** The digits of an integer literal: decimal digits, with single
    underscores allowed between two digits.  [prev] tells whether the
    previous character was a digit. *)
Fixpoint int_digits (acc : N) (prev : bool) (s : string) : option N :=
  match s with
  | EmptyString => if prev then Some acc else None
  | String c r =>
      if is_decimal c then int_digits (10 * acc + digit_value c)%N true r
      else if Ascii.eqb c "_"
           then (if prev then int_digits acc false r else None)
           else None
  end.

(** [int(s)]: [None] stands for [ValueError]. *)
Definition int (s : string) : option Z :=
  match rstrip_space (lstrip_space s) with
  | String "+" r => option_map Z.of_N (int_digits 0 false r)
  | String "-" r => option_map (fun n => - Z.of_N n) (int_digits 0 false r)
  | t => option_map Z.of_N (int_digits 0 false t)
  end.

(** The first character of a non-empty string is a digit:
    [s[0].isdigit()]. *)
Definition head_isdigit (s : string) : bool :=
  match s with
  | EmptyString => false
  | String c _ => isdigit c
  end.

End PyStr.

(** ** Data *)

(** A value produced by [json.loads].  JSON numbers are kept as integers:
    the job never computes with them. *)
#[warnings="-register-all"]
Inductive json : Type :=
| JNull
| JBool (b : bool)
| JNumber (n : Z)
| JString (s : string)
| JArray (l : list json)
| JObject (fields : list (string * json)).

(** An [<a>] element as pyquery yields it: [elem.get('href')] and
    [elem.text], either of which may be [None]. *)
Record anchor : Type := { href : option string; elem_text : option string }.

(** The dict with keys ['path'] and ['text'] that [get_links] returns. *)
Record link : Type := { path : string; text : string }.

(** The [data] dict of [scrape_candidates] before ['version_string'] is
    set. *)
Record build_data : Type := {
  d_product_name : string;
  d_release_channel : json;
  d_major_version : Z;
  d_release_version : string;
  d_build_id : json;
  d_archive_url : string
}.

(** The keyword arguments of [insert_build]: one row of
    [crashstats_productversion]. *)
Record row : Type := {
  product_name : string;
  release_channel : json;
  major_version : Z;
  release_version : string;
  version_string : string;
  build_id : json;
  archive_url : string
}.

(** [data['release_channel'] = c] *)
Definition set_release_channel (d : build_data) (c : json) : build_data :=
  {| d_product_name := d_product_name d;
     d_release_channel := c;
     d_major_version := d_major_version d;
     d_release_version := d_release_version d;
     d_build_id := d_build_id d;
     d_archive_url := d_archive_url d |}.

(** [data['version_string'] = v]: the dict is then complete and its items
    are the keyword arguments of [insert_build]. *)
Definition with_version_string (d : build_data) (v : string) : row :=
  {| product_name := d_product_name d;
     release_channel := d_release_channel d;
     major_version := d_major_version d;
     release_version := d_release_version d;
     version_string := v;
     build_id := d_build_id d;
     archive_url := d_archive_url d |}.

(** The exceptions that can travel through the job. *)
Inductive exn : Type :=
| ConnectionError     (* requests: retries exhausted, timeout *)
| ValueError          (* int(), json.loads *)
| IndexError          (* list index out of range *)
| KeyError            (* missing dict key *)
| TypeError           (* subscript of a value that is not a dict *)
| AttributeError      (* .split on a value that is not a str *)
| IntegrityError      (* psycopg2.IntegrityError *)
| DatabaseError.      (* any other psycopg2.Error *)

Inductive result (A : Type) : Type :=
| Ok (a : A)
| Raise (e : exn).
Arguments Ok {A} a.
Arguments Raise {A} e.

(** What [session.get(url)] gives: a response with its status code and
    content, or a connection-level fault. *)
Inductive fetch : Type :=
| Response (status_code : Z) (content : string)
| Fault.

(** What [cursor.execute(sql, params)] does with an INSERT, given the rows
    of the table: it stores the row, giving the new rows, or raises. *)
Inductive exec_outcome : Type :=
| Stored (rows : list row)
| Violation        (* raises psycopg2.IntegrityError *)
| Failure.         (* raises another psycopg2.Error *)

(** How a statement sent to the database ended. *)
Inductive verdict : Type := Inserted | Duplicate | Errored.

Inductive message : Type :=
| MsgInserting (r : row)
| MsgDownloading (url : string)
| MsgBadStatus (url : string) (status : Z)
| MsgSkipping (major_version_minus_4 : Z)
| MsgNoJson (build_path : string)
| MsgFailedInsert
| MsgInserted (n : Z).

Inductive log_record : Type :=
| LogInfo (m : message)
| LogWarning (m : message)
| LogException (m : message).

(** The world the job acts on. *)
Record world : Type := {
  table : list row;
  statements : list (row * verdict);
  requests : list string;
  log : list log_record;
  successful_inserts : Z
}.

(** What the job imports and is configured with. *)
Record env : Type := {
  base_url : string;
  verbose : bool;
  urljoin : string -> string -> string;
  session_get : string -> fetch;
  pq_anchors : string -> list anchor;
  json_loads : string -> option json;
  cursor_execute : list row -> row -> exec_outcome
}.

(** ** The monad of the job *)

Definition M (A : Type) : Type := world -> world * result A.

Definition ret {A} (a : A) : M A := fun w => (w, Ok a).

Definition raise {A} (e : exn) : M A := fun w => (w, Raise e).

Definition bind {A B} (m : M A) (k : A -> M B) : M B :=
  fun w =>
    match m w with
    | (w', Ok a) => k a w'
    | (w', Raise e) => (w', Raise e)
    end.

Declare Scope job_scope.
Delimit Scope job_scope with job.
Notation "x <- m ;; k" := (bind m (fun x => k))
  (at level 100, m at next level, right associativity) : job_scope.
Notation "m ;; k" := (bind m (fun _ => k))
  (at level 100, right associativity) : job_scope.
Local Open Scope job_scope.

(** [try: m except e: h e] *)
Definition try_except {A} (m : M A) (h : exn -> M A) : M A :=
  fun w =>
    match m w with
    | (w', Ok a) => (w', Ok a)
    | (w', Raise e) => h e w'
    end.

Definition when (b : bool) (m : M unit) : M unit :=
  if b then m else ret tt.

(** [None] becomes the exception [e]. *)
Definition or_raise {A} (e : exn) (o : option A) : M A :=
  match o with
  | Some a => ret a
  | None => raise e
  end.

(** [for x in xs: body x] *)
Fixpoint for_each {A} (body : A -> M unit) (xs : list A) : M unit :=
  match xs with
  | [] => ret tt
  | x :: rest => body x ;; for_each body rest
  end.

(** [for x in xs: acc = body acc x], giving the last [acc]. *)
Fixpoint for_fold {A S} (body : S -> A -> M S) (xs : list A) (acc : S) : M S :=
  match xs with
  | [] => ret acc
  | x :: rest => acc' <- body acc x ;; for_fold body rest acc'
  end.

(** [enumerate(xs)] *)
Definition enumerate {A} (xs : list A) : list (nat * A) :=
  combine (seq 0 (List.length xs)) xs.

Definition add_log (r : log_record) : M unit :=
  fun w =>
    ({| table := table w; statements := statements w;
        requests := requests w; log := (log w ++ [r])%list;
        successful_inserts := successful_inserts w |}, Ok tt).

Definition logger_info (m : message) : M unit := add_log (LogInfo m).
Definition logger_warning (m : message) : M unit := add_log (LogWarning m).
Definition logger_exception (m : message) : M unit := add_log (LogException m).

(** ** The job *)

(** Substrings that indicate the thing is not a platform we want to
    traverse. *)
Definition NON_PLATFORM_SUBSTRINGS : list string :=
  [ "beetmover"; "contrib"; "funnelcake"; "jsshell"; "logs"; "mar-tools";
    "partner-repacks"; "source"; "update" ].

(** [key_for_build_link]: the integer made of the digits of the link's
    path; [None] when [int] raises [ValueError]. *)
Definition key_for_build_link (l : link) : option Z :=
  PyStr.int (PyStr.filter PyStr.isdigit (path l)).

(** [build_links.sort(key=key_for_build_link)] once the keys are known:
    Python's sort is stable, so the sorted list is the one that stable
    insertion gives. *)
Fixpoint insert_by_key {A} (x : Z * A) (l : list (Z * A)) : list (Z * A) :=
  match l with
  | [] => [x]
  | y :: t => if fst x <=? fst y then x :: y :: t else y :: insert_by_key x t
  end.

Fixpoint sort_by_key {A} (l : list (Z * A)) : list (Z * A) :=
  match l with
  | [] => []
  | x :: t => insert_by_key x (sort_by_key t)
  end.

(** The keys are computed for every element before anything moves. *)
Fixpoint decorate {A} (key : A -> option Z) (l : list A) : option (list (Z * A)) :=
  match l with
  | [] => Some []
  | x :: t =>
      match key x with
      | None => None
      | Some k =>
          match decorate key t with
          | None => None
          | Some kt => Some ((k, x) :: kt)
          end
      end
  end.

Definition sort_build_links (build_links : list link) : option (list link) :=
  option_map (fun kl => map snd (sort_by_key kl))
             (decorate key_for_build_link build_links).

(** Truth value of a string or of an optional string. *)
Definition nonempty (s : string) : bool := negb (String.eqb s "").

Definition truthy (o : option string) : bool :=
  match o with
  | Some s => nonempty s
  | None => false
  end.

(** [data[k]] *)
Definition getitem (v : json) (k : string) : M json :=
  match v with
  | JObject fields =>
      match find (fun kv => String.eqb (fst kv) k) fields with
      | Some kv => ret (snd kv)
      | None => raise KeyError
      end
  | _ => raise TypeError
  end.

(** [v.split('.')[0]] on a value read from JSON *)
Definition str_of (v : json) : M string :=
  match v with
  | JString s => ret s
  | _ => raise AttributeError
  end.

(** [c == 'release'] on a value read from JSON *)
Definition is_release (c : json) : bool :=
  match c with
  | JString s => String.eqb s "release"
  | _ => false
  end.

(** [SELECT max(major_version) FROM crashstats_productversion
     WHERE product_name = %s] *)
Definition max_major_version (product : string) (rows : list row) : option Z :=
  fold_left
    (fun acc r =>
       if String.eqb (product_name r) product
       then match acc with
            | None => Some (major_version r)
            | Some m => Some (Z.max m (major_version r))
            end
       else acc)
    rows None.

(** [if major_version:] *)
Definition watermark (major_version : option Z) : option Z :=
  match major_version with
  | Some w => if w =? 0 then None else Some w
  | None => None
  end.

(** [int(link['text'].split('.')[0])] *)
Definition label_major (label : string) : option Z :=
  PyStr.int (PyStr.first_field "." label).

(** [int(text.split('.')[0]) >= major_version_minus_4 or 'esr' in text] *)
Definition keep_version (major_version_minus_4 : Z) (l : link) : M bool :=
  m <- or_raise ValueError (label_major (text l)) ;;
  ret ((major_version_minus_4 <=? m) || PyStr.contains "esr" (text l)).

(** [[x for x in xs if p x]] where [p] may raise. *)
Fixpoint filter_m {A} (p : A -> M bool) (xs : list A) : M (list A) :=
  match xs with
  | [] => ret []
  | x :: rest =>
      b <- p x ;;
      ys <- filter_m p rest ;;
      ret (if b then x :: ys else ys)
  end.

(** The [i]-th element of a list, or [IndexError]. *)
Definition index {A} (l : list A) (i : nat) : M A :=
  or_raise IndexError (nth_error l i).

Section Job.

Variable E : env.

(** [get_max_major_version] *)
Definition get_max_major_version (product : string) : M (option Z) :=
  fun w => (w, Ok (max_major_version product (table w))).

(** [cursor.execute(sql, params)] for the INSERT of [insert_build]. *)
Definition execute_insert (r : row) : M unit :=
  fun w =>
    match cursor_execute E (table w) r with
    | Stored rows =>
        ({| table := rows; statements := (statements w ++ [(r, Inserted)])%list;
            requests := requests w; log := log w;
            successful_inserts := successful_inserts w |}, Ok tt)
    | Violation =>
        ({| table := table w; statements := (statements w ++ [(r, Duplicate)])%list;
            requests := requests w; log := log w;
            successful_inserts := successful_inserts w |}, Raise IntegrityError)
    | Failure =>
        ({| table := table w; statements := (statements w ++ [(r, Errored)])%list;
            requests := requests w; log := log w;
            successful_inserts := successful_inserts w |}, Raise DatabaseError)
    end.

(** [self.successful_inserts += 1] *)
Definition count_insert : M unit :=
  fun w =>
    ({| table := table w; statements := statements w;
        requests := requests w; log := log w;
        successful_inserts := successful_inserts w + 1 |}, Ok tt).

(** [insert_build].  The connection and its cursor are taken to be there;
    the transaction of [transaction_context] holds this one statement and
    ends normally whatever the statement did, since both handlers swallow
    the exception. *)
Definition insert_build (r : row) : M unit :=
  when (verbose E) (logger_info (MsgInserting r)) ;;
  try_except
    (execute_insert r ;; count_insert)
    (fun e =>
       match e with
       | IntegrityError => ret tt
       | DatabaseError => logger_exception MsgFailedInsert
       | _ => raise e
       end).

(** [get_links] *)
Definition get_links (content : string) : list link :=
  flat_map
    (fun elem =>
       match href elem, elem_text elem with
       | Some h, Some t =>
           if nonempty h && nonempty t &&
              negb (String.eqb t "." || String.eqb t "..")
           then [ {| path := h; text := t |} ]
           else []
       | _, _ => []
       end)
    (pq_anchors E content).

(** [self.session.get(url)] *)
Definition session_get_m (url : string) : M (Z * string) :=
  fun w =>
    let w' := {| table := table w; statements := statements w;
                 requests := (requests w ++ [url])%list; log := log w;
                 successful_inserts := successful_inserts w |} in
    match session_get E url with
    | Response status content => (w', Ok (status, content))
    | Fault => (w', Raise ConnectionError)
    end.

(** [download] *)
Definition download (url_path : string) : M string :=
  let url := urljoin E (base_url E) url_path in
  when (verbose E) (logger_info (MsgDownloading url)) ;;
  resp <- session_get_m url ;;
  if negb (fst resp =? 200)
  then when (verbose E) (logger_warning (MsgBadStatus url (fst resp))) ;;
       ret ""
  else ret (snd resp).

(** The choice that [get_json_links] makes among the links of one en-US
    listing. *)
Definition json_link_of_locale (locale_contents : string) : option string :=
  let json_links :=
    map path
      (filter
         (fun l => PyStr.endswith ".json" (path l) &&
                   negb (PyStr.contains "mozinfo" (path l)) &&
                   negb (PyStr.contains "test_packages" (path l)))
         (get_links locale_contents)) in
  let buildhub_links := filter (PyStr.endswith "buildhub.json") json_links in
  match buildhub_links with
  | b :: _ => Some b
  | [] =>
      match json_links with
      | j :: _ => Some j
      | [] => None
      end
  end.

(** One turn of the loop of [get_json_links]. *)
Definition json_links_step (all_json_links : list string) (directory_link : string)
  : M (list string) :=
  if existsb (fun bad_dir => PyStr.contains bad_dir directory_link)
             NON_PLATFORM_SUBSTRINGS
  then ret all_json_links
  else
    locale_contents <- download (directory_link ++ "en-US/") ;;
    if negb (nonempty locale_contents) then ret all_json_links
    else match json_link_of_locale locale_contents with
         | Some j => ret (all_json_links ++ [j])%list
         | None => ret all_json_links
         end.

(** [get_json_links] *)
Definition get_json_links (build_path : string) : M (list string) :=
  build_contents <- download build_path ;;
  let directory_links :=
    map path (filter (fun l => PyStr.endswith "/" (text l))
                     (get_links build_contents)) in
  for_fold json_links_step directory_links [].

(** The [data] dict built from a buildhub.json file or from a build info
    file of the older format. *)
Definition read_build_data (product json_link : string) (data : json)
  : M build_data :=
  if PyStr.contains "buildhub" json_link
  then
    target <- getitem data "target" ;;
    channel <- getitem target "channel" ;;
    version <- getitem target "version" ;;
    version_str <- str_of version ;;
    major <- or_raise ValueError (label_major version_str) ;;
    build <- getitem data "build" ;;
    id <- getitem build "id" ;;
    ret {| d_product_name := product;
           d_release_channel := channel;
           d_major_version := major;
           d_release_version := version_str;
           d_build_id := id;
           d_archive_url := urljoin E (base_url E) json_link |}
  else
    channel <- getitem data "moz_update_channel" ;;
    version <- getitem data "moz_app_version" ;;
    version_str <- str_of version ;;
    major <- or_raise ValueError (label_major version_str) ;;
    id <- getitem data "buildid" ;;
    ret {| d_product_name := product;
           d_release_channel := channel;
           d_major_version := major;
           d_release_version := version_str;
           d_build_id := id;
           d_archive_url := urljoin E (base_url E) json_link |}.

(** The rows inserted for one build info file: the [if final_build] block
    that ends [scrape_candidates]. *)
Definition insert_rows (data : build_data)
  (version_root rc_version_string : string) (final_build : bool) : M unit :=
  if final_build
  then
    if is_release (d_release_channel data)
    then
      let data := set_release_channel data (JString "beta") in
      insert_build (with_version_string data rc_version_string) ;;
      let data := set_release_channel data (JString "release") in
      insert_build (with_version_string data version_root)
    else
      insert_build (with_version_string data version_root) ;;
      insert_build (with_version_string data rc_version_string)
  else
    if is_release (d_release_channel data)
    then
      let data := set_release_channel data (JString "beta") in
      insert_build (with_version_string data rc_version_string)
    else
      insert_build (with_version_string data rc_version_string).

(** The body of [for json_link in json_links]. *)
Definition scrape_json_link (product version_root : string)
  (is_final_release : bool) (build_count : nat) (i : nat) (build_link : link)
  (json_link : string) : M unit :=
  json_file <- download json_link ;;
  data <- or_raise ValueError (json_loads E json_file) ;;
  data <- read_build_data product json_link data ;;
  let rc_version_string :=
    version_root ++ "rc" ++ PyStr.drop_last (PyStr.drop 5 (text build_link)) in
  let final_build := Nat.eqb (i + 1) build_count && is_final_release in
  insert_rows data version_root rc_version_string final_build.

(** The body of [for i, build_link in enumerate(build_links)]. *)
Definition scrape_build (product version_root : string)
  (is_final_release : bool) (build_count : nat) (ib : nat * link) : M unit :=
  let i := fst ib in
  let build_link := snd ib in
  json_links <- get_json_links (path build_link) ;;
  match json_links with
  | [] => logger_warning (MsgNoJson (path build_link))
  | _ :: _ =>
      for_each
        (scrape_json_link product version_root is_final_release build_count
                          i build_link)
        json_links
  end.

(** The body of [for link in version_links]. *)
Definition scrape_version (product : string) (final_releases : list string)
  (l : link) : M unit :=
  content <- download (path l) ;;
  let build_links :=
    filter (fun b => PyStr.startswith "build" (text b)) (get_links content) in
  version_root <- index (PyStr.split "/" (path l)) 4 ;;
  let version_root := PyStr.remove_all "-candidates" version_root in
  let is_final_release := existsb (String.eqb version_root) final_releases in
  build_links <- or_raise ValueError (sort_build_links build_links) ;;
  for_each
    (scrape_build product version_root is_final_release (List.length build_links))
    (enumerate build_links).

(** The filter that [scrape_candidates] applies when the table already
    gives a major version. *)
Definition filter_version_links (major_version : option Z)
  (version_links : list link) : M (list link) :=
  match watermark major_version with
  | Some w =>
      let major_version_minus_4 := w - 4 in
      logger_info (MsgSkipping major_version_minus_4) ;;
      filter_m (keep_version major_version_minus_4) version_links
  | None => ret version_links
  end.

(** [scrape_candidates] *)
Definition scrape_candidates (product archive_directory : string) : M unit :=
  let url_path := "/pub/" ++ archive_directory ++ "/candidates/" in
  major_version <- get_max_major_version product ;;
  let release_path := "/pub/" ++ archive_directory ++ "/releases/" in
  release_path_content <- download release_path ;;
  let final_releases :=
    map (fun l => PyStr.rstrip "/" (text l))
        (filter (fun l => PyStr.head_isdigit (text l))
                (get_links release_path_content)) in
  content <- download url_path ;;
  let version_links :=
    filter (fun l => PyStr.head_isdigit (text l)) (get_links content) in
  version_links <- filter_version_links major_version version_links ;;
  for_each (scrape_version product final_releases) version_links.

(** [self.logger.info('Inserted %s builds.', self.successful_inserts)] *)
Definition log_inserted : M unit :=
  fun w => logger_info (MsgInserted (successful_inserts w)) w.

(** [run] *)
Definition run : M unit :=
  scrape_candidates "Firefox" "firefox" ;;
  scrape_candidates "DevEdition" "devedition" ;;
  scrape_candidates "Fennec" "mobile" ;;
  log_inserted.

End Job.

(** ** The table, as the specification describes it *)

(** Equality of two values read from JSON. *)
Fixpoint json_eqb (a b : json) : bool :=
  match a, b with
  | JNull, JNull => true
  | JBool x, JBool y => Bool.eqb x y
  | JNumber x, JNumber y => x =? y
  | JString x, JString y => String.eqb x y
  | JArray l, JArray l' =>
      (fix all2 (l l' : list json) : bool :=
         match l, l' with
         | [], [] => true
         | x :: t, y :: t' => json_eqb x y && all2 t t'
         | _, _ => false
         end) l l'
  | JObject f, JObject f' =>
      (fix all2 (f f' : list (string * json)) : bool :=
         match f, f' with
         | [], [] => true
         | (k, x) :: t, (k', y) :: t' =>
             String.eqb k k' && json_eqb x y && all2 t t'
         | _, _ => false
         end) f f'
  | _, _ => false
  end.

(** The tuple that the table keeps unique. *)
Definition same_key (a b : row) : bool :=
  String.eqb (product_name a) (product_name b) &&
  json_eqb (release_channel a) (release_channel b) &&
  String.eqb (version_string a) (version_string b).

(** Modelled from the spec: the catalog store, whose table is declared by
    the web application outside this job.  The tuple (product_name,
    release_channel, version_string) is unique and the store enforces it:
    inserting a row whose tuple is already present is a uniqueness
    violation, any other row is appended. *)
Definition catalog_execute (rows : list row) (r : row) : exec_outcome :=
  if existsb (same_key r) rows then Violation else Stored (rows ++ [r]).

(** ** Notions of the specification *)

(** The run of decimal digits that starts a label. *)
Fixpoint leading_digits (s : string) : string :=
  match s with
  | EmptyString => EmptyString
  | String c r =>
      if PyStr.is_decimal c then String c (leading_digits r) else EmptyString
  end.

Fixpoint decimal_value (acc : N) (s : string) : N :=
  match s with
  | EmptyString => acc
  | String c r => decimal_value (10 * acc + PyStr.digit_value c)%N r
  end.

(** The leading integer of a label, in the specification's words: the
    number that its leading digits write. *)
Definition leading_integer (label : string) : Z :=
  Z.of_N (decimal_value 0 (leading_digits label)).

Fixpoint all_decimal (s : string) : bool :=
  match s with
  | EmptyString => true
  | String c r => PyStr.is_decimal c && all_decimal r
  end.

(** A catalog row with the descriptor's fields copied, under a given
    channel and version string. *)
Definition catalog_row (d : build_data) (channel : json) (v : string) : row :=
  {| product_name := d_product_name d;
     release_channel := channel;
     major_version := d_major_version d;
     release_version := d_release_version d;
     version_string := v;
     build_id := d_build_id d;
     archive_url := d_archive_url d |}.

(** The build number of a link whose key is defined. *)
Definition key_le (a b : link) : Prop :=
  match key_for_build_link a, key_for_build_link b with
  | Some x, Some y => x <= y
  | _, _ => False
  end.

(** The directory links that [get_json_links] walks. *)
Definition directory_links (E : env) (build_contents : string) : list string :=
  map path (filter (fun l => PyStr.endswith "/" (text l))
                   (get_links E build_contents)).

Definition excluded (directory_link : string) : bool :=
  existsb (fun bad_dir => PyStr.contains bad_dir directory_link)
          NON_PLATFORM_SUBSTRINGS.

(** The links of an en-US listing that [get_json_links] can choose from:
    they end in [.json] and mention neither mozinfo nor test_packages. *)
Definition usable_json_links (E : env) (locale_contents : string) : list string :=
  map path
    (filter
       (fun l => PyStr.endswith ".json" (path l) &&
                 negb (PyStr.contains "mozinfo" (path l)) &&
                 negb (PyStr.contains "test_packages" (path l)))
       (get_links E locale_contents)).

(** The URL that [download] requests for a path. *)
Definition url_of (E : env) (url_path : string) : string :=
  urljoin E (base_url E) url_path.

(** What [download] returns for a path, read off the archive. *)
Definition download_value (E : env) (url_path : string) : result string :=
  match session_get E (url_of E url_path) with
  | Response status content =>
      Ok (if status =? 200 then content else "")
  | Fault => Raise ConnectionError
  end.

(** The page that [download] returns when the archive answers. *)
Definition page (E : env) (url_path : string) : string :=
  match download_value E url_path with
  | Ok content => content
  | Raise _ => ""
  end.

(** The link, if any, that one platform directory contributes. *)
Definition platform_link (E : env) (directory_link : string) : list string :=
  if excluded directory_link then []
  else
    let locale_contents := page E (directory_link ++ "en-US/") in
    if nonempty locale_contents
    then match json_link_of_locale E locale_contents with
         | Some j => [j]
         | None => []
         end
    else [].

(** The world before the job has done anything. *)
Definition new_world : world :=
  {| table := []; statements := []; requests := []; log := [];
     successful_inserts := 0 |}.

(** The rows that a list of statements carried. *)
Definition sent (w : world) : list row := map fst (statements w).

(** ** A small archive to run the job on *)

Module Example.

(** A listing is written as its anchors, separated by [;], each one as its
    href, a space and its text: what pyquery reads off the HTML page. *)
Definition listing_anchors (content : string) : list anchor :=
  flat_map
    (fun item =>
       match PyStr.split " " item with
       | [h; t] => [ {| href := Some h; elem_text := Some t |} ]
       | _ => []
       end)
    (PyStr.split ";" content).

(** A build info file is written as its fields, separated by [:], after the
    name of its format. *)
Definition build_info_loads (content : string) : option json :=
  match PyStr.split ":" content with
  | ["buildhub"; channel; version; id] =>
      Some (JObject
              [ ("build", JObject [("id", JString id)]);
                ("target", JObject [ ("channel", JString channel);
                                     ("version", JString version) ]) ])
  | ["legacy"; channel; version; id] =>
      Some (JObject [ ("buildid", JString id);
                      ("moz_app_version", JString version);
                      ("moz_update_channel", JString channel) ])
  | _ => None
  end.

(** [urljoin] on the default base URL, for the absolute paths that the
    archive's listings carry. *)
Definition join_absolute (base url_path : string) : string :=
  "https://archive.mozilla.org" ++ url_path.

(** The listing of a directory from the names of its entries. *)
Definition listing (dir : string) (names : list string) : string :=
  String.concat ";" (map (fun n => dir ++ n ++ " " ++ n) names).

Definition candidates : string := "/pub/firefox/candidates/".
Definition v58 : string := candidates ++ "58.0b1-candidates/".
Definition v63 : string := candidates ++ "63.0-candidates/".
Definition v63_build1 : string := v63 ++ "build1/".
Definition v63_build2 : string := v63 ++ "build2/".

(** The pages of the archive, by path. *)
Definition pages : list (string * string) :=
  [ ("/pub/firefox/releases/", listing "/pub/firefox/releases/" ["63.0/"]);
    (candidates, listing candidates ["58.0b1-candidates/"; "63.0-candidates/"]);
    (v58, listing v58 ["build1/"]);
    (v58 ++ "build1/", listing (v58 ++ "build1/") ["linux-i686/"]);
    (v58 ++ "build1/linux-i686/en-US/",
     listing (v58 ++ "build1/linux-i686/en-US/") ["firefox-58.0b1.json"]);
    (v58 ++ "build1/linux-i686/en-US/firefox-58.0b1.json",
     "legacy:beta:58.0:20171103003834");
    (v63, listing v63 ["build2/"; "build1/"]);
    (v63_build1, listing v63_build1 ["mac/"; "linux-i686/"; "win32/"]);
    (v63_build1 ++ "linux-i686/en-US/",
     listing (v63_build1 ++ "linux-i686/en-US/") ["buildhub.json"]);
    (v63_build1 ++ "linux-i686/en-US/buildhub.json",
     "buildhub:release:63.0:20181015152800");
    (v63_build1 ++ "win32/en-US/",
     listing (v63_build1 ++ "win32/en-US/") ["buildhub.json"]);
    (v63_build1 ++ "win32/en-US/buildhub.json",
     "buildhub:release:63.0:20181015152801");
    (v63_build2, listing v63_build2 ["linux-i686/"]);
    (v63_build2 ++ "linux-i686/en-US/",
     listing (v63_build2 ++ "linux-i686/en-US/") ["buildhub.json"]);
    (v63_build2 ++ "linux-i686/en-US/buildhub.json",
     "buildhub:release:63.0:20181018182531") ].

(** The archive answers 200 for its pages and 404 for anything else. *)
Definition archive_get (url : string) : fetch :=
  match find (fun p => String.eqb (join_absolute "" (fst p)) url) pages with
  | Some p => Response 200 (snd p)
  | None => Response 404 "Not Found"
  end.

Definition archive : env :=
  {| base_url := "https://archive.mozilla.org/pub/";
     verbose := false;
     urljoin := join_absolute;
     session_get := archive_get;
     pq_anchors := listing_anchors;
     json_loads := build_info_loads;
     cursor_execute := catalog_execute |}.

(** The same archive when the connection fails on the Firefox releases
    listing and on nothing else. *)
Definition failing_get (url : string) : fetch :=
  if String.eqb url "https://archive.mozilla.org/pub/firefox/releases/"
  then Fault
  else archive_get url.

Definition failing_archive : env :=
  {| base_url := base_url archive;
     verbose := false;
     urljoin := join_absolute;
     session_get := failing_get;
     pq_anchors := listing_anchors;
     json_loads := build_info_loads;
     cursor_execute := catalog_execute |}.

(** The same archive behind a proxy that answers 203 (Non-Authoritative
    Information) with the page. *)
Definition proxied_get (url : string) : fetch :=
  match archive_get url with
  | Response 200 content => Response 203 content
  | other => other
  end.

Definition proxied_archive : env :=
  {| base_url := base_url archive;
     verbose := false;
     urljoin := join_absolute;
     session_get := proxied_get;
     pq_anchors := listing_anchors;
     json_loads := build_info_loads;
     cursor_execute := catalog_execute |}.

Definition linux_json : string := v63_build1 ++ "linux-i686/en-US/buildhub.json".
Definition win32_json : string := v63_build1 ++ "win32/en-US/buildhub.json".

(** The world after the first walk of Firefox, and the world in which a
    second run starts: the same table and a job with nothing counted. *)
Definition first_walk : world :=
  fst (scrape_candidates archive "Firefox" "firefox" new_world).

Definition second_start : world :=
  {| table := table first_walk; statements := []; requests := []; log := [];
     successful_inserts := 0 |}.

(** The world after a whole run on the archive. *)
Definition after_run : world := fst (run archive new_world).

(** A second archive, for the corners of the walk: candidates on both
    sides of a watermark, builds that a listing sorted by name gives out of
    order, platform directories that are excluded, missing or without build
    info, en-US listings with several JSON files, and a listing with
    relative hrefs. *)
Definition mobile : string := "/pub/mobile/candidates/".
Definition v64 : string := candidates ++ "64.0b3-candidates/".
Definition v64_build1 : string := v64 ++ "build1/".
Definition v64_build2 : string := v64 ++ "build2/".
Definition v64_build10 : string := v64 ++ "build10/".
Definition v65 : string := candidates ++ "65.0b1-candidates/".

Definition corner_pages : list (string * string) :=
  [ ("/pub/firefox/releases/", listing "/pub/firefox/releases/" ["63.0/"]);
    (candidates,
     listing candidates
       [ "52.0esr-candidates/"; "58.0b1-candidates/"; "59.0b1-candidates/";
         "64.0b3-candidates/" ]);
    (mobile, listing mobile ["52esr-candidates/"; "63.0b7-candidates/"]);
    (v64, listing v64 ["build1/"; "build10/"; "build2/"]);
    (v64_build1,
     listing v64_build1 ["partner-repacks/"; "mac/"; "linux-i686/"]);
    (v64_build1 ++ "linux-i686/en-US/",
     listing (v64_build1 ++ "linux-i686/en-US/")
       [ "firefox-64.0b3.mozinfo.json"; "firefox-64.0b3.test_packages.json";
         "firefox-64.0b3.txt" ]);
    (v64_build2,
     listing v64_build2 ["update/"; "mac/"; "linux-i686/"; "win32/"; "win64/"]);
    (v64_build2 ++ "linux-i686/en-US/",
     listing (v64_build2 ++ "linux-i686/en-US/")
       ["firefox-64.0b3.mozinfo.json"; "firefox-64.0b3.txt"]);
    (v64_build2 ++ "win32/en-US/",
     listing (v64_build2 ++ "win32/en-US/")
       [ "firefox-64.0b3.mozinfo.json"; "firefox-64.0b3.json"; "buildhub.json" ]);
    (v64_build2 ++ "win64/en-US/",
     listing (v64_build2 ++ "win64/en-US/")
       [ "firefox-64.0b3.test_packages.json"; "firefox-64.0b3.json";
         "firefox-64.0b3.checksums.json" ]);
    (v64_build10, listing v64_build10 ["linux64/"]);
    (v64_build10 ++ "linux64/en-US/",
     listing (v64_build10 ++ "linux64/en-US/")
       ["firefox-64.0b3.json"; "test_packages.buildhub.json"]);
    (v65, "build1/ build1/;build/ build/") ].

Definition corner_get (url : string) : fetch :=
  match find (fun p => String.eqb (join_absolute "" (fst p)) url) corner_pages with
  | Some p => Response 200 (snd p)
  | None => Response 404 "Not Found"
  end.


(** The second archive when the connection fails on the en-US listing of
    linux-i686 in build2 and on nothing else. *)
Definition corner_failing_get (url : string) : fetch :=
  if String.eqb url (join_absolute "" (v64_build2 ++ "linux-i686/en-US/"))
  then Fault
  else corner_get url.

Definition corner_failing_archive : env :=
  {| base_url := "https://archive.mozilla.org/pub/";
     verbose := false;
     urljoin := join_absolute;
     session_get := corner_failing_get;
     pq_anchors := listing_anchors;
     json_loads := build_info_loads;
     cursor_execute := catalog_execute |}.




End Example.

(** ** Notions for the proofs *)

(** Two worlds with the same table, statements and counter. *)
Definition same_db (w w' : world) : Prop :=
  table w = table w' /\
  statements w = statements w' /\
  successful_inserts w = successful_inserts w'.

(** What sending one row does to the table of [catalog_execute], to the
    statements and to the counter. *)
Definition store_row (w : world) (r : row) : world :=
  if existsb (same_key r) (table w)
  then {| table := table w;
          statements := (statements w ++ [(r, Duplicate)])%list;
          requests := requests w; log := log w;
          successful_inserts := successful_inserts w |}
  else {| table := (table w ++ [r])%list;
          statements := (statements w ++ [(r, Inserted)])%list;
          requests := requests w; log := log w;
          successful_inserts := successful_inserts w + 1 |}.

Definition replay (rs : list row) (w : world) : world :=
  fold_left store_row rs w.

(** A computation whose result and whose rows sent do not depend on the
    world it starts from. *)
Definition oblivious {A} (m : M A) (rs : list row) (res : result A) : Prop :=
  forall w, snd (m w) = res /\ same_db (fst (m w)) (replay rs w).

Definition Oblivious {A} (m : M A) : Prop :=
  exists rs res, oblivious m rs res.

(** Every row of [rs] has its key in the table [t]. *)
Definition all_present (rs t : list row) : Prop :=
  Forall (fun r => existsb (same_key r) t = true) rs.

(** The first field of a label, up to its first dot, is a non-empty run of
    decimal digits, as in [63.0b7-candidates/]. *)
Definition has_decimal_major (label : string) : bool :=
  nonempty (PyStr.first_field "." label) &&
  all_decimal (PyStr.first_field "." label).


(** The archive answers the request for a path, with whatever status. *)
Definition answers (E : env) (url_path : string) : bool :=
  match session_get E (url_of E url_path) with
  | Response _ _ => true
  | Fault => false
  end.

(** What one turn of the loop of [get_json_links] returns, read off the
    archive. *)
Definition json_links_step_value (E : env) (all_json_links : list string)
  (directory_link : string) : result (list string) :=
  if excluded directory_link then Ok all_json_links
  else
    match download_value E (directory_link ++ "en-US/") with
    | Raise e => Raise e
    | Ok locale_contents =>
        Ok (all_json_links ++
            (if nonempty locale_contents
             then match json_link_of_locale E locale_contents with
                  | Some j => [j]
                  | None => []
                  end
             else []))%list
    end.


(** The links that the watermark filter keeps, when every [int] succeeds. *)
Fixpoint kept_links (major_version_minus_4 : Z) (links : list link)
  : option (list link) :=
  match links with
  | [] => Some []
  | l :: rest =>
      match label_major (text l) with
      | None => None
      | Some m =>
          match kept_links major_version_minus_4 rest with
          | None => None
          | Some ys =>
              Some (if (major_version_minus_4 <=? m) ||
                       PyStr.contains "esr" (text l)
                    then l :: ys else ys)
          end
      end
  end.

Definition kept_version_links (major_version : option Z) (links : list link)
  : option (list link) :=
  match watermark major_version with
  | Some w => kept_links (w - 4) links
  | None => Some links
  end.

(** The final releases and the candidate versions that [scrape_candidates]
    reads off the two listings of a product. *)
Definition final_releases_of (E : env) (release_path_content : string)
  : list string :=
  map (fun l => PyStr.rstrip "/" (text l))
      (filter (fun l => PyStr.head_isdigit (text l))
              (get_links E release_path_content)).

Definition version_links_of (E : env) (content : string) : list link :=
  filter (fun l => PyStr.head_isdigit (text l)) (get_links E content).

(** One major version is at least another, when there is one. *)
Definition major_le (a b : option Z) : Prop :=
  match a, b with
  | None, _ => True
  | Some x, Some y => x <= y
  | Some _, None => False
  end.

(** The statements of a run in which every row was already there. *)
Definition duplicates (rs : list row) : list (row * verdict) :=
  map (fun r => (r, Duplicate)) rs.

(** ** Notions for the properties of the whole walk *)

(** The number of rows stored among some statements. *)
Fixpoint inserted (tr : list (row * verdict)) : Z :=
  match tr with
  | [] => 0
  | (_, Inserted) :: t => 1 + inserted t
  | (_, _) :: t => inserted t
  end.

(** A computation only adds statements; the rows it sends satisfy [P], the
    counter grows by the number of rows stored and a value it returns
    satisfies [Q]. *)
Definition emits {A} (P : row -> Prop) (Q : A -> Prop) (m : M A) : Prop :=
  forall w, exists tr,
    statements (fst (m w)) = (statements w ++ tr)%list /\
    Forall (fun x => P (fst x)) tr /\
    successful_inserts (fst (m w)) = successful_inserts w + inserted tr /\
    (forall a, snd (m w) = Ok a -> Q a).

(** The rows of the [if final_build] block, as a list. *)
Definition matrix_rows (d : build_data) (version_root rc_version_string : string)
  (final_build : bool) : list row :=
  let channel := d_release_channel d in
  if final_build
  then if is_release channel
       then [ catalog_row d (JString "beta") rc_version_string;
              catalog_row d (JString "release") version_root ]
       else [ catalog_row d channel version_root;
              catalog_row d channel rc_version_string ]
  else if is_release channel
       then [ catalog_row d (JString "beta") rc_version_string ]
       else [ catalog_row d channel rc_version_string ].

(** What a walk of [product] with the final releases [final_releases] may
    send: rows of that product, and in the release channel only under the
    name of a final release. *)
Definition walk_row (product : string) (final_releases : list string)
  (r : row) : Prop :=
  product_name r = product /\
  (is_release (release_channel r) = true ->
   In (version_string r) final_releases).

(** [link['path'].split('/')[4]] without its [-candidates]. *)
Definition version_root_of (l : link) : option string :=
  option_map (PyStr.remove_all "-candidates")
             (nth_error (PyStr.split "/" (path l)) 4).

(** The value of a key in the fields of a JSON object. *)
Definition field (k : string) (fields : list (string * json)) : option json :=
  option_map snd (find (fun kv => String.eqb (fst kv) k) fields).

(** No character of a string is [c]. *)
Fixpoint free_of (c : ascii) (s : string) : bool :=
  match s with
  | EmptyString => true
  | String a r => negb (Ascii.eqb a c) && free_of c r
  end.

(** One list starts another. *)
Definition prefix_of {A} (a b : list A) : Prop := exists rest, b = (a ++ rest)%list.

(** A computation that leaves the world alone and whose result does not
    depend on it. *)
Definition reads_only {A} (m : M A) : Prop :=
  forall w, m w = (w, snd (m new_world)).

(** A decimal numeral without a leading zero. *)
Definition canonical_numeral (s : string) : bool :=
  match s with
  | EmptyString => false
  | String c _ => negb (Ascii.eqb c "0") && all_decimal s
  end.

(** The number that a run of decimal digits writes. *)
Definition numeral_value (s : string) : Z := Z.of_N (decimal_value 0 s).

(** The same job on another database. *)
Definition with_store (E : env)
  (execute : list row -> row -> exec_outcome) : env :=
  {| base_url := base_url E;
     verbose := verbose E;
     urljoin := urljoin E;
     session_get := session_get E;
     pq_anchors := pq_anchors E;
     json_loads := json_loads E;
     cursor_execute := execute |}.

(** Two computations that, from any two worlds, end alike, send the same
    rows and make the same requests. *)
Definition steady {A} (m1 m2 : M A) : Prop :=
  forall w1 w2,
    snd (m1 w1) = snd (m2 w2) /\
    exists rs qs,
      sent (fst (m1 w1)) = (sent w1 ++ rs)%list /\
      sent (fst (m2 w2)) = (sent w2 ++ rs)%list /\
      requests (fst (m1 w1)) = (requests w1 ++ qs)%list /\
      requests (fst (m2 w2)) = (requests w2 ++ qs)%list.

(** ** [crashstats/utils.py]: the cleaning of emitted JSON *)

(** [s.replace(old, new)] for a non-empty [old]: the occurrences of [old],
    found left to right without overlap, are replaced by [new].  [skip]
    counts the characters of the current occurrence still to drop. *)
Fixpoint replace_from (old new : string) (skip : nat) (s : string) : string :=
  match s with
  | EmptyString => EmptyString
  | String c r =>
      match skip with
      | S k => replace_from old new k r
      | O => if String.prefix old s
             then new ++ replace_from old new (Nat.pred (String.length old)) r
             else String c (replace_from old new O r)
      end
  end.

Definition str_replace (old new s : string) : string := replace_from old new O s.

(** [_json_clean]: forward slashes after [<] are escaped. *)
Definition _json_clean (value : string) : string :=
  str_replace "</" "<\/" value.

(** ** The watermark filter, the order of the builds and the requests *)






(** The platform directories whose en-US listing [get_json_links] requests:
    those that are not excluded, in listing order, up to and including the
    first one on which the connection fails. *)
Fixpoint visited_until_fault (E : env) (dirs : list string) : list string :=
  match dirs with
  | [] => []
  | d :: rest =>
      if excluded d then visited_until_fault E rest
      else if answers E (d ++ "en-US/") then d :: visited_until_fault E rest
      else [d]
  end.


(** * Properties *)

(** ** The string operations on the paths and labels of the archive *)

Example split_candidates :
  PyStr.split "/" "/pub/firefox/candidates/63.0b7-candidates/" =
  [""; "pub"; "firefox"; "candidates"; "63.0b7-candidates"; ""].
Proof. reflexivity. Qed.

Example remove_candidates :
  PyStr.remove_all "-candidates" "63.0b7-candidates" = "63.0b7".
Proof. reflexivity. Qed.

Example rstrip_slash : PyStr.rstrip "/" "64.0b8/" = "64.0b8".
Proof. reflexivity. Qed.

Example build_number_text :
  PyStr.drop_last (PyStr.drop 5 "build10/") = "10".
Proof. reflexivity. Qed.

Example int_63 : PyStr.int "63" = Some 63.
Proof. reflexivity. Qed.

Example int_underscore : PyStr.int " 6_3 " = Some 63.
Proof. reflexivity. Qed.

Example int_rejects_suffix : PyStr.int "63-candidates/" = None.
Proof. reflexivity. Qed.

Example int_rejects_empty : PyStr.int "" = None.
Proof. reflexivity. Qed.

Example int_strips_no_break_space :
  PyStr.int ("63" ++ String (ascii_of_nat 160) "") = Some 63.
Proof. reflexivity. Qed.

Example int_rejects_separator :
  PyStr.int ("63" ++ String (ascii_of_nat 28) "") = None.
Proof. reflexivity. Qed.

Example key_of_absolute_path :
  key_for_build_link
    {| path := "/pub/firefox/candidates/63.0b7-candidates/build10/";
       text := "build10/" |} = Some 630710.
Proof. reflexivity. Qed.

Example excluded_partner_repacks :
  excluded "/pub/firefox/candidates/63.0-candidates/build1/partner-repacks/" = true.
Proof. reflexivity. Qed.

(** The first walk of Firefox on the example archive: the builds are
    taken in the order 1, 2; build 2 is the final build. *)
Example first_walk_rows :
  map (fun r => (release_channel r, version_string r, build_id r))
      (sent Example.first_walk) =
  [ (JString "beta", "58.0b1rc1", JString "20171103003834");
    (JString "beta", "63.0rc1", JString "20181015152800");
    (JString "beta", "63.0rc1", JString "20181015152801");
    (JString "beta", "63.0rc2", JString "20181018182531");
    (JString "release", "63.0", JString "20181018182531") ].
Proof. vm_compute. reflexivity. Qed.

(** ** The monad *)

Lemma bind_ok {A B} {m : M A} (k : A -> M B) {w w' a} :
  m w = (w', Ok a) -> bind m k w = k a w'.
Proof. intros H. unfold bind. now rewrite H. Qed.

Lemma bind_raise {A B} {m : M A} (k : A -> M B) {w w' e} :
  m w = (w', Raise e) -> bind m k w = (w', Raise e).
Proof. intros H. unfold bind. now rewrite H. Qed.

Lemma bind_cases {A B} (m : M A) (k : A -> M B) (w : world) :
  (exists e, snd (m w) = Raise e /\ bind m k w = (fst (m w), Raise e)) \/
  (exists a, snd (m w) = Ok a /\ bind m k w = k a (fst (m w))).
Proof.
  unfold bind. destruct (m w) as [w' [a|e]]; cbn; eauto.
Qed.

Lemma bind_run {A B} (m : M A) (k : A -> M B) (w : world) (a : A) :
  snd (m w) = Ok a -> bind m k w = k a (fst (m w)).
Proof. unfold bind. destruct (m w) as [w' r]. cbn. now intros ->. Qed.

Lemma bind_stop {A B} (m : M A) (k : A -> M B) (w : world) (e : exn) :
  snd (m w) = Raise e -> bind m k w = (fst (m w), Raise e).
Proof. unfold bind. destruct (m w) as [w' r]. cbn. now intros ->. Qed.

(** ** The fetcher *)

Lemma download_run (E : env) (url_path : string) (w : world) :
  snd (download E url_path w) = download_value E url_path /\
  same_db (fst (download E url_path w)) w /\
  requests (fst (download E url_path w)) =
    (requests w ++ [url_of E url_path])%list.
Proof.
  unfold download, download_value, url_of, bind, when, session_get_m,
    logger_info, logger_warning, add_log, ret, same_db.
  destruct (verbose E); cbn;
    destruct (session_get E (urljoin E (base_url E) url_path)) as [st c|]; cbn;
    try destruct (st =? 200); cbn; auto.
Qed.

(** C8, as the code has it: [download] returns the content of the response
    when its status code is 200 and the empty string for every other status
    code, 2xx or not; a response never makes it raise. *)
Theorem download_returns_content_on_200 (E : env) (url_path : string) (w : world) :
  match session_get E (url_of E url_path) with
  | Response status content =>
      snd (download E url_path w) = Ok (if status =? 200 then content else "")
  | Fault => snd (download E url_path w) = Raise ConnectionError
  end.
Proof.
  destruct (download_run E url_path w) as [H _]. rewrite H.
  unfold download_value.
  now destruct (session_get E (url_of E url_path)).
Qed.

(** C8, as the specification states it, fails: a response with status 203 is a
    success that carries the listing, and [download] returns the empty
    string for it. *)
Lemma download_203_counterexample :
  let body := Example.listing Example.candidates
                ["58.0b1-candidates/"; "63.0-candidates/"] in
  session_get Example.proxied_archive
    (url_of Example.proxied_archive Example.candidates) = Response 203 body /\
  200 <= 203 < 300 /\
  snd (download Example.proxied_archive Example.candidates new_world) = Ok "" /\
  Ok "" <> Ok body.
Proof.
  cbv zeta. split; [reflexivity|]. split; [lia|].
  split; [reflexivity|]. vm_compute. discriminate.
Qed.

(** ** The catalog writer *)

Lemma is_release_iff (c : json) : is_release c = true <-> c = JString "release".
Proof.
  destruct c; cbn; try (split; [discriminate | intros H; discriminate H]).
  rewrite String.eqb_eq. split; [now intros -> | now intros [= ->]].
Qed.

Lemma insert_build_run (E : env) (r : row) (w : world) :
  snd (insert_build E r w) = Ok tt /\
  sent (fst (insert_build E r w)) = (sent w ++ [r])%list /\
  requests (fst (insert_build E r w)) = requests w.
Proof.
  unfold insert_build, bind, try_except, when, execute_insert, count_insert,
    logger_info, logger_exception, add_log, ret, sent.
  destruct (verbose E); cbn;
    destruct (cursor_execute E (table w) r); cbn;
    rewrite map_app; auto.
Qed.

(** C7: whatever the statement does, [insert_build] returns normally, so
    that the code after it runs: a uniqueness violation changes neither the
    table nor the counter and logs nothing, any other database error is
    logged with the row left out, and only a stored row is counted. *)
Theorem insert_build_absorbs_errors (E : env) (r : row) (w : world) :
  let w' := fst (insert_build E r w) in
  let announced :=
    if verbose E then [LogInfo (MsgInserting r)] else [] in
  snd (insert_build E r w) = Ok tt /\
  (forall (B : Type) (k : unit -> M B), bind (insert_build E r) k w = k tt w') /\
  sent w' = (sent w ++ [r])%list /\
  match cursor_execute E (table w) r with
  | Violation =>
      table w' = table w /\
      successful_inserts w' = successful_inserts w /\
      log w' = (log w ++ announced)%list /\
      statements w' = (statements w ++ [(r, Duplicate)])%list
  | Failure =>
      table w' = table w /\
      successful_inserts w' = successful_inserts w /\
      log w' = (log w ++ announced ++ [LogException MsgFailedInsert])%list /\
      statements w' = (statements w ++ [(r, Errored)])%list
  | Stored rows =>
      table w' = rows /\
      successful_inserts w' = successful_inserts w + 1 /\
      log w' = (log w ++ announced)%list /\
      statements w' = (statements w ++ [(r, Inserted)])%list
  end.
Proof.
  cbv zeta.
  destruct (insert_build_run E r w) as (Hok & Hsent & _).
  split; [exact Hok|]. split.
  - intros B k. unfold bind.
    destruct (insert_build E r w) as [w1 res]. cbn in *. now subst res.
  - split; [exact Hsent|].
    unfold insert_build, bind, try_except, when, execute_insert, count_insert,
      logger_info, logger_exception, add_log, ret.
    destruct (verbose E); cbn;
      destruct (cursor_execute E (table w) r); cbn;
      rewrite ?app_nil_r, <- ?app_assoc; auto.
Qed.

Lemma insert_build_twice (E : env) (r1 r2 : row) (w : world) :
  snd (bind (insert_build E r1) (fun _ => insert_build E r2) w) = Ok tt /\
  sent (fst (bind (insert_build E r1) (fun _ => insert_build E r2) w)) =
    (sent w ++ [r1; r2])%list.
Proof.
  destruct (insert_build_run E r1 w) as (H1 & S1 & _).
  unfold bind. destruct (insert_build E r1 w) as [w1 res1]. cbn in *.
  subst res1.
  destruct (insert_build_run E r2 w1) as (H2 & S2 & _).
  split; [exact H2|]. rewrite S2, S1, <- app_assoc. reflexivity.
Qed.

(** C2: for one build info file [insert_rows] never raises and sends
    exactly the rows of the channel and final-build matrix, in this order:
    final and release, the rc under beta then the version root under
    release; final and not release, the version root then the rc under the
    descriptor's channel; not final, the rc alone, under beta when the
    descriptor said release and under the descriptor's channel otherwise. *)
Theorem insert_rows_matrix (E : env) (data : build_data)
  (version_root rc_version_string : string) (w : world) :
  let channel := d_release_channel data in
  let rows_of final_build :=
    sent (fst (insert_rows E data version_root rc_version_string final_build w)) in
  (forall final_build,
     snd (insert_rows E data version_root rc_version_string final_build w) = Ok tt) /\
  (channel = JString "release" ->
   rows_of true =
     (sent w ++ [ catalog_row data (JString "beta") rc_version_string;
                  catalog_row data (JString "release") version_root ])%list) /\
  (channel <> JString "release" ->
   rows_of true =
     (sent w ++ [ catalog_row data channel version_root;
                  catalog_row data channel rc_version_string ])%list) /\
  (channel = JString "release" ->
   rows_of false =
     (sent w ++ [ catalog_row data (JString "beta") rc_version_string ])%list) /\
  (channel <> JString "release" ->
   rows_of false =
     (sent w ++ [ catalog_row data channel rc_version_string ])%list).
Proof.
  cbv zeta.
  assert (Hno : d_release_channel data <> JString "release" ->
                is_release (d_release_channel data) = false).
  { intros Hne. destruct (is_release (d_release_channel data)) eqn:Hr; auto.
    apply is_release_iff in Hr. contradiction. }
  split; [|repeat split].
  - intros [|]; unfold insert_rows;
      destruct (is_release (d_release_channel data));
      first [apply insert_build_twice | apply insert_build_run].
  - intros Hc. unfold insert_rows.
    rewrite (proj2 (is_release_iff _) Hc). apply insert_build_twice.
  - intros Hc. unfold insert_rows. rewrite (Hno Hc).
    apply insert_build_twice.
  - intros Hc. unfold insert_rows.
    rewrite (proj2 (is_release_iff _) Hc). apply insert_build_run.
  - intros Hc. unfold insert_rows. rewrite (Hno Hc). apply insert_build_run.
Qed.

(** The rows of the specification's examples: a descriptor of the release
    channel for 63.0 with rc string 63.0rc5, final or not, and a descriptor
    of the beta channel for 63.0b7 with rc string 63.0b7rc3, final. *)
Lemma insert_rows_matrix_witness :
  let descriptor channel :=
    {| d_product_name := "Firefox";
       d_release_channel := JString channel;
       d_major_version := 63;
       d_release_version := "63.0";
       d_build_id := JString "20181018182531";
       d_archive_url := "https://archive.mozilla.org/buildhub.json" |} in
  let rows data version_root rc final_build :=
    map (fun r => (release_channel r, version_string r))
        (sent (fst (insert_rows Example.archive data version_root rc
                      final_build new_world))) in
  rows (descriptor "release") "63.0" "63.0rc5" true =
    [ (JString "beta", "63.0rc5"); (JString "release", "63.0") ] /\
  rows (descriptor "release") "63.0" "63.0rc5" false =
    [ (JString "beta", "63.0rc5") ] /\
  rows (descriptor "beta") "63.0b7" "63.0b7rc3" true =
    [ (JString "beta", "63.0b7"); (JString "beta", "63.0b7rc3") ].
Proof.
  cbv zeta.
  pose proof (insert_rows_matrix Example.archive
    {| d_product_name := "Firefox";
       d_release_channel := JString "release";
       d_major_version := 63;
       d_release_version := "63.0";
       d_build_id := JString "20181018182531";
       d_archive_url := "https://archive.mozilla.org/buildhub.json" |}
    "63.0" "63.0rc5" new_world) as H.
  pose proof (insert_rows_matrix Example.archive
    {| d_product_name := "Firefox";
       d_release_channel := JString "beta";
       d_major_version := 63;
       d_release_version := "63.0";
       d_build_id := JString "20181018182531";
       d_archive_url := "https://archive.mozilla.org/buildhub.json" |}
    "63.0b7" "63.0b7rc3" new_world) as H'.
  cbv zeta in H, H'.
  destruct H as (_ & H1 & _ & H3 & _). destruct H' as (_ & _ & H2 & _).
  rewrite (H1 eq_refl), (H3 eq_refl), (H2 ltac:(discriminate)).
  repeat split; reflexivity.
Defined.

(** ** The run *)

(** C6, as the code has it: [run] has no handler around a product's walk,
    so an exception raised while walking a product, a connection fault among
    them, leaves [run] at once with the world as that walk left it; the
    products after it are not walked. *)
Theorem run_stops_at_first_failure (E : env) (w : world) (e : exn) :
  (forall w1,
     scrape_candidates E "Firefox" "firefox" w = (w1, Raise e) ->
     run E w = (w1, Raise e)) /\
  (forall w1 w2,
     scrape_candidates E "Firefox" "firefox" w = (w1, Ok tt) ->
     scrape_candidates E "DevEdition" "devedition" w1 = (w2, Raise e) ->
     run E w = (w2, Raise e)) /\
  (forall w1 w2 w3,
     scrape_candidates E "Firefox" "firefox" w = (w1, Ok tt) ->
     scrape_candidates E "DevEdition" "devedition" w1 = (w2, Ok tt) ->
     scrape_candidates E "Fennec" "mobile" w2 = (w3, Raise e) ->
     run E w = (w3, Raise e)).
Proof.
  unfold run. repeat split.
  - intros w1 H1. now apply bind_raise.
  - intros w1 w2 H1 H2. rewrite (bind_ok _ H1). now apply bind_raise.
  - intros w1 w2 w3 H1 H2 H3.
    rewrite (bind_ok _ H1), (bind_ok _ H2). now apply bind_raise.
Qed.

Lemma run_stops_at_first_failure_witness :
  run Example.failing_archive new_world =
  ({| table := []; statements := [];
      requests := ["https://archive.mozilla.org/pub/firefox/releases/"];
      log := []; successful_inserts := 0 |}, Raise ConnectionError).
Proof.
  apply (proj1 (run_stops_at_first_failure Example.failing_archive new_world
                  ConnectionError)).
  reflexivity.
Defined.

(** C6, as the specification states it, fails: when the connection fails on the
    first listing of Firefox, [run] raises the fault after that one request;
    the listings of DevEdition and Fennec are never requested, although the
    walk of either of them would have returned. *)
Lemma run_fault_counterexample :
  snd (run Example.failing_archive new_world) = Raise ConnectionError /\
  requests (fst (run Example.failing_archive new_world)) =
    ["https://archive.mozilla.org/pub/firefox/releases/"] /\
  snd (scrape_candidates Example.failing_archive "DevEdition" "devedition"
         new_world) = Ok tt /\
  snd (scrape_candidates Example.failing_archive "Fennec" "mobile"
         new_world) = Ok tt.
Proof. repeat split; reflexivity. Qed.

(** ** Integers read from strings *)

Lemma decimal_not_space (c : ascii) :
  PyStr.is_decimal c = true -> PyStr.int_space c = false.
Proof.
  unfold PyStr.is_decimal, PyStr.int_space.
  generalize (PyStr.code c). intros n H.
  apply andb_true_iff in H. destruct H as [H1 H2].
  apply N.leb_le in H1. apply N.leb_le in H2.
  repeat rewrite orb_false_iff. repeat rewrite andb_false_iff.
  repeat rewrite N.leb_gt. repeat rewrite N.eqb_neq. lia.
Qed.

Lemma rstrip_space_decimal (s : string) :
  all_decimal s = true -> PyStr.rstrip_space s = s.
Proof.
  induction s as [|c r IH]; cbn; [reflexivity|].
  intros H. apply andb_true_iff in H. destruct H as [Hc Hr].
  rewrite (decimal_not_space c Hc), (IH Hr). reflexivity.
Qed.

Lemma int_digits_decimal (s : string) :
  all_decimal s = true ->
  forall acc prev,
    s <> "" \/ prev = true ->
    PyStr.int_digits acc prev s = Some (decimal_value acc s).
Proof.
  induction s as [|c r IH]; cbn; intros H acc prev Hp.
  - destruct Hp as [Hp|Hp]; [congruence | now subst prev].
  - apply andb_true_iff in H. destruct H as [Hc Hr]. rewrite Hc.
    apply IH; auto.
Qed.

Lemma decimal_isdigit (c : ascii) :
  PyStr.is_decimal c = true -> PyStr.isdigit c = true.
Proof. unfold PyStr.isdigit. now intros ->. Qed.

(** A string that starts with a digit carries no sign. *)
Lemma int_unsigned (c : ascii) (r : string) :
  PyStr.isdigit c = true ->
  PyStr.int (String c r) =
  option_map Z.of_N (PyStr.int_digits 0 false (PyStr.rstrip_space (String c r))).
Proof.
  intros Hc.
  destruct c as [[] [] [] [] [] [] [] []]; try discriminate Hc; reflexivity.
Qed.

Lemma int_decimal (s : string) :
  s <> "" -> all_decimal s = true ->
  PyStr.int s = Some (Z.of_N (decimal_value 0 s)).
Proof.
  intros Hne Hall. destruct s as [|c r]; [congruence|].
  pose proof Hall as Hall'. cbn in Hall'.
  apply andb_true_iff in Hall'. destruct Hall' as [Hc _].
  rewrite (int_unsigned c r (decimal_isdigit c Hc)), (rstrip_space_decimal _ Hall).
  rewrite (int_digits_decimal _ Hall 0%N false); [reflexivity | left; congruence].
Qed.

Lemma split_not_nil (sep : ascii) (s : string) : PyStr.split sep s <> [].
Proof.
  destruct s as [|c r]; cbn; [discriminate|].
  destruct (Ascii.eqb c sep); [discriminate|].
  destruct (PyStr.split sep r); discriminate.
Qed.

Lemma first_field_cons (sep c : ascii) (r : string) :
  PyStr.first_field sep (String c r) =
  if Ascii.eqb c sep then "" else String c (PyStr.first_field sep r).
Proof.
  unfold PyStr.first_field. cbn.
  destruct (Ascii.eqb c sep); [reflexivity|].
  pose proof (split_not_nil sep r) as H.
  destruct (PyStr.split sep r); [congruence | reflexivity].
Qed.

Lemma leading_digits_first_field (label : string) :
  all_decimal (PyStr.first_field "." label) = true ->
  leading_digits label = PyStr.first_field "." label.
Proof.
  induction label as [|c r IH]; [reflexivity|].
  rewrite first_field_cons. cbn [leading_digits].
  destruct (Ascii.eqb c ".") eqn:Hdot.
  - apply Ascii.eqb_eq in Hdot. subst c. reflexivity.
  - cbn [all_decimal]. intros H. apply andb_true_iff in H.
    destruct H as [Hc Hr]. rewrite Hc, (IH Hr). reflexivity.
Qed.

Lemma label_major_decimal (label : string) :
  has_decimal_major label = true ->
  label_major label = Some (leading_integer label).
Proof.
  unfold has_decimal_major, nonempty, label_major, leading_integer.
  intros H. apply andb_true_iff in H. destruct H as [Hne Hall].
  rewrite (leading_digits_first_field _ Hall).
  apply int_decimal; [|exact Hall].
  intros Heq. rewrite Heq in Hne. discriminate Hne.
Qed.

Lemma leading_integer_nonneg (label : string) : 0 <= leading_integer label.
Proof. unfold leading_integer. lia. Qed.

Lemma decimal_major_head (label : string) :
  has_decimal_major label = true -> PyStr.head_isdigit label = true.
Proof.
  unfold has_decimal_major, nonempty. destruct label as [|c r]; [discriminate|].
  rewrite first_field_cons. destruct (Ascii.eqb c "."); [discriminate|].
  cbn. intros H. apply andb_true_iff in H. destruct H as [Hc _].
  now apply decimal_isdigit.
Qed.

(** C9, as the code has it: when the first field of a label, up to its
    first dot, is a non-empty run of decimal digits, the label starts with
    a digit and the extraction [int(label.split('.')[0])] succeeds and
    yields the leading integer of the label, so that the test of the
    watermark filter does not raise; the same expression reads the major
    version of a descriptor's version field. *)
Theorem label_major_succeeds (label : string) :
  has_decimal_major label = true ->
  PyStr.head_isdigit label = true /\
  label_major label = Some (leading_integer label) /\
  forall (major_version_minus_4 : Z) (href : string) (w : world),
    keep_version major_version_minus_4 {| path := href; text := label |} w =
    (w, Ok ((major_version_minus_4 <=? leading_integer label) ||
            PyStr.contains "esr" label)).
Proof.
  intros H. split; [now apply decimal_major_head|].
  pose proof (label_major_decimal label H) as Hm. split; [exact Hm|].
  intros m4 href w. unfold keep_version, bind, or_raise. cbn [text].
  now rewrite Hm.
Qed.

Lemma label_major_succeeds_witness :
  label_major "63.0b7-candidates/" = Some 63.
Proof.
  apply (label_major_succeeds "63.0b7-candidates/"). reflexivity.
Defined.

(** C9, as the specification states it, fails: a label can start with a digit and
    have no dot after its leading integer; [int] then raises
    [ValueError]. *)
Lemma label_major_counterexample :
  PyStr.head_isdigit "63-candidates/" = true /\
  leading_integer "63-candidates/" = 63 /\
  label_major "63-candidates/" = None /\
  keep_version 59 {| path := "/pub/firefox/candidates/63-candidates/";
                     text := "63-candidates/" |} new_world =
    (new_world, Raise ValueError).
Proof. repeat split; reflexivity. Qed.

(** ** The order of the builds *)

Lemma decorate_some {A} (key : A -> option Z) (l : list A) :
  Forall (fun x => key x <> None) l ->
  exists kl, decorate key l = Some kl /\ map snd kl = l /\
             Forall (fun kx => key (snd kx) = Some (fst kx)) kl.
Proof.
  induction 1 as [|x t Hx _ IH].
  - exists []. cbn. auto.
  - destruct IH as (kt & Hd & Hm & Hk). cbn. rewrite Hd.
    destruct (key x) as [k|] eqn:Hkey; [|congruence].
    exists ((k, x) :: kt). cbn. rewrite Hm. repeat split; auto.
Qed.







(** Without a key for some path [int] raises and nothing is sorted. *)
Lemma sort_build_links_raises (build_links : list link) (l : link) :
  In l build_links -> key_for_build_link l = None ->
  sort_build_links build_links = None.
Proof.
  intros Hin Hkey. unfold sort_build_links.
  replace (decorate key_for_build_link build_links) with (@None (list (Z * link)));
    [reflexivity|].
  symmetry. induction build_links as [|x t IH]; [destruct Hin|].
  cbn. destruct Hin as [->|Hin]; [now rewrite Hkey|].
  destruct (key_for_build_link x); [|reflexivity]. now rewrite (IH Hin).
Qed.












(** ** The links to build info files *)

Lemma same_db_refl (w : world) : same_db w w.
Proof. now repeat split. Qed.

Lemma same_db_trans (a b c : world) : same_db a b -> same_db b c -> same_db a c.
Proof.
  unfold same_db. intros (H1 & H2 & H3) (H4 & H5 & H6).
  repeat split; congruence.
Qed.

Lemma json_links_step_run (E : env) (acc : list string) (d : string) (w : world) :
  snd (json_links_step E acc d w) = json_links_step_value E acc d /\
  same_db (fst (json_links_step E acc d w)) w /\
  requests (fst (json_links_step E acc d w)) =
    (requests w ++ if excluded d then [] else [url_of E (d ++ "en-US/")])%list.
Proof.
  unfold json_links_step, json_links_step_value. fold (excluded d).
  destruct (excluded d).
  - cbn. rewrite app_nil_r. auto using same_db_refl.
  - destruct (download_run E (d ++ "en-US/") w) as (Hv & Hdb & Hreq).
    unfold bind. destruct (download E (d ++ "en-US/") w) as [w1 res].
    cbn in Hv, Hdb, Hreq. rewrite <- Hv.
    destruct res as [c|e]; cbn; [|auto].
    destruct (nonempty c); cbn.
    + destruct (json_link_of_locale E c); cbn; rewrite ?app_nil_r; auto.
    + rewrite app_nil_r. auto.
Qed.

Lemma json_links_step_answered (E : env) (acc : list string) (d : string) :
  excluded d || answers E (d ++ "en-US/") = true ->
  json_links_step_value E acc d = Ok (acc ++ platform_link E d)%list.
Proof.
  unfold json_links_step_value, platform_link, page, download_value, answers.
  destruct (excluded d); cbn; [now rewrite app_nil_r|].
  destruct (session_get E (url_of E (d ++ "en-US/"))); [reflexivity|discriminate].
Qed.


Lemma download_answered (E : env) (url_path : string) (w : world) :
  answers E url_path = true ->
  snd (download E url_path w) = Ok (page E url_path).
Proof.
  intros H. destruct (download_run E url_path w) as (Hv & _). rewrite Hv.
  unfold page, download_value, answers in *.
  now destruct (session_get E (url_of E url_path)).
Qed.






Lemma json_links_step_fault (E : env) (acc : list string) (d : string) :
  excluded d || answers E (d ++ "en-US/") = false ->
  json_links_step_value E acc d = Raise ConnectionError.
Proof.
  unfold json_links_step_value, download_value, answers.
  destruct (excluded d); cbn; [discriminate|].
  destruct (session_get E (url_of E (d ++ "en-US/"))); [discriminate|reflexivity].
Qed.

Lemma for_fold_json_links_fault (E : env) (dirs : list string) :
  forallb (fun d => excluded d || answers E (d ++ "en-US/")) dirs = false ->
  forall acc w,
    snd (for_fold (json_links_step E) dirs acc w) = Raise ConnectionError.
Proof.
  induction dirs as [|d rest IH]; cbn [forallb for_fold]; [discriminate|].
  intros Hall acc w.
  destruct (json_links_step_run E acc d w) as (Hv & _ & _).
  destruct (excluded d || answers E (d ++ "en-US/")) eqn:Hd.
  - rewrite (json_links_step_answered E acc d Hd) in Hv.
    rewrite (bind_run _ _ _ _ Hv). now apply IH.
  - rewrite (json_links_step_fault E acc d Hd) in Hv.
    now rewrite (bind_stop _ _ _ _ Hv).
Qed.

Lemma get_json_links_fault (E : env) (build_path : string) (w : world) :
  answers E build_path &&
  forallb (fun d => excluded d || answers E (d ++ "en-US/"))
          (directory_links E (page E build_path)) = false ->
  snd (get_json_links E build_path w) = Raise ConnectionError.
Proof.
  intros H. unfold get_json_links.
  destruct (answers E build_path) eqn:Hans.
  - rewrite (bind_run _ _ _ _ (download_answered E build_path w Hans)).
    fold (directory_links E (page E build_path)).
    now apply for_fold_json_links_fault.
  - destruct (download_run E build_path w) as (Hv & _).
    assert (Hr : download_value E build_path = Raise ConnectionError).
    { unfold download_value, answers in *.
      now destruct (session_get E (url_of E build_path)). }
    rewrite Hr in Hv. now rewrite (bind_stop _ _ _ _ Hv).
Qed.




(** ** Running the walk of a product again *)

Lemma json_eqb_refl (v : json) : json_eqb v v = true.
Proof.
  revert v. fix IH 1. intros [| b | n | s | l | f]; cbn.
  - reflexivity.
  - apply Bool.eqb_reflx.
  - apply Z.eqb_refl.
  - apply String.eqb_refl.
  - induction l as [|x t IHl]; [reflexivity|]. now rewrite IH, IHl.
  - induction f as [|[k x] t IHf]; [reflexivity|].
    now rewrite String.eqb_refl, IH, IHf.
Qed.

Lemma same_key_refl (r : row) : same_key r r = true.
Proof.
  unfold same_key. now rewrite !String.eqb_refl, json_eqb_refl.
Qed.

Lemma present_app (r : row) (t extra : list row) :
  existsb (same_key r) t = true -> existsb (same_key r) (t ++ extra) = true.
Proof. intros H. rewrite existsb_app, H. reflexivity. Qed.

Lemma store_row_same_db (w1 w2 : world) (r : row) :
  same_db w1 w2 -> same_db (store_row w1 r) (store_row w2 r).
Proof.
  unfold same_db, store_row. intros (Ht & Hs & Hc). rewrite Ht, Hs, Hc.
  destruct (existsb (same_key r) (table w2)); cbn; auto.
Qed.

Lemma replay_cons (r : row) (rest : list row) (w : world) :
  replay (r :: rest) w = replay rest (store_row w r).
Proof. reflexivity. Qed.

Lemma replay_same_db (rs : list row) :
  forall w1 w2, same_db w1 w2 -> same_db (replay rs w1) (replay rs w2).
Proof.
  induction rs as [|r rest IH]; cbn; intros w1 w2 H; [exact H|].
  apply IH, store_row_same_db, H.
Qed.

Lemma replay_app (a b : list row) (w : world) :
  replay (a ++ b) w = replay b (replay a w).
Proof. apply fold_left_app. Qed.

Lemma replay_table (rs : list row) :
  forall w, exists extra, table (replay rs w) = (table w ++ extra)%list.
Proof.
  induction rs as [|r rest IH]; intros w.
  - exists []. cbn. now rewrite app_nil_r.
  - rewrite replay_cons.
    destruct (IH (store_row w r)) as (extra & He). rewrite He.
    unfold store_row. destruct (existsb (same_key r) (table w)); cbn.
    + now exists extra.
    + exists (r :: extra). now rewrite <- app_assoc.
Qed.

Lemma replay_present (rs : list row) :
  forall w, all_present rs (table (replay rs w)).
Proof.
  unfold all_present.
  induction rs as [|r rest IH]; intros w; constructor;
    rewrite replay_cons; [|apply IH].
  destruct (replay_table rest (store_row w r)) as (extra & He). rewrite He.
  apply present_app. unfold store_row.
  destruct (existsb (same_key r) (table w)) eqn:Hr; cbn; [exact Hr|].
  rewrite existsb_app. cbn. now rewrite same_key_refl, orb_true_r.
Qed.

Lemma replay_all_present (rs : list row) :
  forall w,
    all_present rs (table w) ->
    table (replay rs w) = table w /\
    successful_inserts (replay rs w) = successful_inserts w /\
    statements (replay rs w) = (statements w ++ duplicates rs)%list.
Proof.
  unfold all_present, duplicates.
  induction rs as [|r rest IH]; intros w H.
  - cbn. now rewrite app_nil_r.
  - rewrite replay_cons. inversion H as [|? ? Hr Hrest]; subst.
    assert (Hw : store_row w r =
                 {| table := table w;
                    statements := (statements w ++ [(r, Duplicate)])%list;
                    requests := requests w; log := log w;
                    successful_inserts := successful_inserts w |}).
    { unfold store_row. now rewrite Hr. }
    rewrite Hw.
    match goal with
    | |- context [replay rest ?x] => destruct (IH x Hrest) as (Ht & Hc & Hs)
    end.
    rewrite Ht, Hc, Hs. cbn. now rewrite <- app_assoc.
Qed.

Lemma all_present_app (rs t extra : list row) :
  all_present rs t -> all_present rs (t ++ extra).
Proof.
  unfold all_present. intros H. eapply Forall_impl; [|exact H].
  intros r. apply present_app.
Qed.

(** *** Computations that do not look at the world *)

Lemma oblivious_ret {A} (a : A) : oblivious (ret a) [] (Ok a).
Proof. intros w. split; [reflexivity | apply same_db_refl]. Qed.

Lemma oblivious_raise {A} (e : exn) : oblivious (@raise A e) [] (Raise e).
Proof. intros w. split; [reflexivity | apply same_db_refl]. Qed.

Lemma oblivious_bind_ok {A B} (m : M A) (k : A -> M B) rs rs' a res :
  oblivious m rs (Ok a) -> oblivious (k a) rs' res ->
  oblivious (bind m k) (rs ++ rs') res.
Proof.
  intros Hm Hk w. destruct (Hm w) as (Hr & Hdb). unfold bind.
  destruct (m w) as [w1 r]. cbn [fst snd] in *. subst r.
  destruct (Hk w1) as (Hr' & Hdb'). split; [exact Hr'|].
  rewrite replay_app. eapply same_db_trans; [exact Hdb'|].
  now apply replay_same_db.
Qed.

Lemma oblivious_bind_raise {A B} (m : M A) (k : A -> M B) rs e :
  oblivious m rs (Raise e) -> oblivious (bind m k) rs (Raise e).
Proof.
  intros Hm w. destruct (Hm w) as (Hr & Hdb). unfold bind.
  destruct (m w) as [w1 r]. cbn [fst snd] in *. now subst r.
Qed.

Lemma Oblivious_ret {A} (a : A) : Oblivious (ret a).
Proof. eexists _, _. apply oblivious_ret. Qed.

Lemma Oblivious_raise {A} (e : exn) : Oblivious (@raise A e).
Proof. eexists _, _. apply oblivious_raise. Qed.

Lemma Oblivious_bind {A B} (m : M A) (k : A -> M B) :
  Oblivious m -> (forall a, Oblivious (k a)) -> Oblivious (bind m k).
Proof.
  intros (rs & [a|e] & Hm) Hk.
  - destruct (Hk a) as (rs' & res & Hka).
    exists (rs ++ rs')%list, res. eapply oblivious_bind_ok; eassumption.
  - exists rs, (Raise e). now apply oblivious_bind_raise.
Qed.

Lemma Oblivious_add_log (r : log_record) : Oblivious (add_log r).
Proof.
  exists [], (Ok tt). intros w. split; [reflexivity | now repeat split].
Qed.

Lemma Oblivious_or_raise {A} (e : exn) (o : option A) : Oblivious (or_raise e o).
Proof. destruct o; [apply Oblivious_ret | apply Oblivious_raise]. Qed.

Lemma Oblivious_getitem (v : json) (k : string) : Oblivious (getitem v k).
Proof.
  unfold getitem. destruct v; try apply Oblivious_raise.
  destruct (find _ _); [apply Oblivious_ret | apply Oblivious_raise].
Qed.

Lemma Oblivious_str_of (v : json) : Oblivious (str_of v).
Proof. destruct v; first [apply Oblivious_ret | apply Oblivious_raise]. Qed.

Lemma Oblivious_for_each {A} (body : A -> M unit) (xs : list A) :
  (forall x, Oblivious (body x)) -> Oblivious (for_each body xs).
Proof.
  intros H. induction xs as [|x rest IH]; cbn; [apply Oblivious_ret|].
  apply Oblivious_bind; auto.
Qed.

Lemma Oblivious_for_fold {A S} (body : S -> A -> M S) (xs : list A) :
  (forall acc x, Oblivious (body acc x)) ->
  forall acc, Oblivious (for_fold body xs acc).
Proof.
  intros H. induction xs as [|x rest IH]; cbn; intros acc;
    [apply Oblivious_ret|].
  apply Oblivious_bind; auto.
Qed.

Lemma Oblivious_table {A} (m : M A) (w : world) :
  Oblivious m -> exists extra, table (fst (m w)) = (table w ++ extra)%list.
Proof.
  intros (rs & res & H). destruct (H w) as (_ & Ht & _). rewrite Ht.
  apply replay_table.
Qed.

Lemma Oblivious_download (E : env) (url_path : string) :
  Oblivious (download E url_path).
Proof.
  exists [], (download_value E url_path). intros w.
  destruct (download_run E url_path w) as (Hv & Hdb & _). auto.
Qed.

Lemma Oblivious_when (b : bool) (m : M unit) : Oblivious m -> Oblivious (when b m).
Proof. destruct b; [auto | intros _; apply Oblivious_ret]. Qed.

Create HintDb oblivious.

#[local] Hint Resolve Oblivious_ret Oblivious_raise Oblivious_add_log
  Oblivious_or_raise Oblivious_getitem Oblivious_str_of Oblivious_download
  : oblivious.

Ltac oblivious_step :=
  first
    [ solve [auto with oblivious]
    | match goal with
      | |- Oblivious (if ?b then _ else _) => destruct b
      | |- Oblivious (match ?x with _ => _ end) => destruct x
      end
    | apply Oblivious_bind; [|intros ?] ].

Lemma Oblivious_json_links_step (E : env) (acc : list string) (d : string) :
  Oblivious (json_links_step E acc d).
Proof. unfold json_links_step. repeat oblivious_step. Qed.

Lemma Oblivious_get_json_links (E : env) (build_path : string) :
  Oblivious (get_json_links E build_path).
Proof.
  unfold get_json_links. apply Oblivious_bind; [auto with oblivious|].
  intros c. apply Oblivious_for_fold. apply Oblivious_json_links_step.
Qed.

Lemma Oblivious_read_build_data (E : env) (product json_link : string)
  (data : json) : Oblivious (read_build_data E product json_link data).
Proof. unfold read_build_data. repeat oblivious_step. Qed.

Section Idempotence.

Variable E : env.
Hypothesis catalog : cursor_execute E = catalog_execute.

Lemma oblivious_insert_build (r : row) : oblivious (insert_build E r) [r] (Ok tt).
Proof.
  intros w. split; [apply insert_build_run|].
  unfold insert_build, bind, try_except, when, execute_insert, count_insert,
    logger_info, logger_exception, add_log, ret, replay, store_row, same_db.
  cbn [fold_left]. rewrite catalog. unfold catalog_execute.
  destruct (verbose E); cbn;
    destruct (existsb (same_key r) (table w)); cbn; auto.
Qed.

Lemma Oblivious_insert_build (r : row) : Oblivious (insert_build E r).
Proof. eexists _, _. apply oblivious_insert_build. Qed.

Lemma Oblivious_insert_rows (data : build_data) (version_root rc : string)
  (final_build : bool) : Oblivious (insert_rows E data version_root rc final_build).
Proof.
  unfold insert_rows.
  destruct final_build; destruct (is_release (d_release_channel data));
    cbv zeta;
    repeat first [apply Oblivious_insert_build | apply Oblivious_bind; [|intros ?]].
Qed.

Lemma Oblivious_scrape_json_link product version_root is_final_release
  build_count i build_link json_link :
  Oblivious (scrape_json_link E product version_root is_final_release
                              build_count i build_link json_link).
Proof.
  unfold scrape_json_link.
  apply Oblivious_bind; [auto with oblivious | intros json_file].
  apply Oblivious_bind; [auto with oblivious | intros data].
  apply Oblivious_bind; [apply Oblivious_read_build_data | intros d].
  apply Oblivious_insert_rows.
Qed.

Lemma Oblivious_scrape_build product version_root is_final_release
  build_count ib :
  Oblivious (scrape_build E product version_root is_final_release
                          build_count ib).
Proof.
  unfold scrape_build. cbv zeta.
  apply Oblivious_bind; [apply Oblivious_get_json_links | intros [|j js]].
  - apply Oblivious_add_log.
  - apply Oblivious_for_each. intros x. apply Oblivious_scrape_json_link.
Qed.

Lemma Oblivious_scrape_version product final_releases l :
  Oblivious (scrape_version E product final_releases l).
Proof.
  unfold scrape_version, index.
  apply Oblivious_bind; [auto with oblivious | intros content].
  apply Oblivious_bind; [auto with oblivious | intros version_root].
  apply Oblivious_bind; [auto with oblivious | intros build_links].
  apply Oblivious_for_each. intros ib. apply Oblivious_scrape_build.
Qed.

(** The first walk: once it has returned, the rows of every version it
    went through are in the table. *)
Lemma walk_records (body : link -> M unit) :
  (forall l, Oblivious (body l)) ->
  forall links w w1,
    for_each body links w = (w1, Ok tt) ->
    (exists extra, table w1 = (table w ++ extra)%list) /\
    forall l, In l links ->
      exists rs, oblivious (body l) rs (Ok tt) /\ all_present rs (table w1).
Proof.
  intros Hbody. induction links as [|l rest IH]; intros w w1 Hrun.
  - cbn in Hrun. injection Hrun as <-. split; [|intros l []].
    exists []. now rewrite app_nil_r.
  - cbn [for_each] in Hrun. unfold bind in Hrun.
    destruct (Hbody l) as (rs & res & Hl). destruct (Hl w) as (Hres & Hdb).
    destruct (body l w) as [w' r]. cbn [fst snd] in Hres, Hdb. subst r.
    destruct res as [[]|e]; [|discriminate Hrun].
    destruct (IH _ _ Hrun) as ((extra & Hextra) & Hrest).
    destruct Hdb as (Ht & _).
    destruct (replay_table rs w) as (extra' & Hextra').
    split.
    + exists (extra' ++ extra)%list.
      now rewrite Hextra, Ht, Hextra', <- app_assoc.
    + intros l' [<-|Hin]; [|now apply Hrest].
      exists rs. split; [exact Hl|]. rewrite Hextra, Ht.
      apply all_present_app, replay_present.
Qed.

(** The second walk: when the rows of every version are already in the
    table, it returns and every statement of it is a duplicate. *)
Lemma walk_again (body : link -> M unit) :
  forall links w,
    (forall l, In l links ->
       exists rs, oblivious (body l) rs (Ok tt) /\ all_present rs (table w)) ->
    exists rows,
      snd (for_each body links w) = Ok tt /\
      table (fst (for_each body links w)) = table w /\
      successful_inserts (fst (for_each body links w)) = successful_inserts w /\
      statements (fst (for_each body links w)) =
        (statements w ++ duplicates rows)%list.
Proof.
  induction links as [|l rest IH]; intros w H.
  - exists []. cbn. now rewrite app_nil_r.
  - destruct (H l (or_introl eq_refl)) as (rs & Hl & Hpresent).
    destruct (Hl w) as (Hres & Hdb).
    destruct (replay_all_present rs w Hpresent) as (Ht & Hc & Hs).
    destruct Hdb as (Ht' & Hs' & Hc').
    cbn [for_each]. unfold bind.
    destruct (body l w) as [w' r]. cbn [fst snd] in *. subst r.
    destruct (IH w') as (rows & Hok & Htable & Hcount & Hstmts).
    { intros l' Hin. rewrite Ht', Ht. apply H. now right. }
    exists (rs ++ rows)%list. unfold duplicates in *.
    rewrite Hok, Htable, Hcount, Hstmts, Ht', Hs', Hc', Ht, Hs, Hc.
    now rewrite map_app, app_assoc.
Qed.

End Idempotence.

(** *** The watermark of the second run *)

Lemma filter_m_keep_version_run (m4 : Z) (links : list link) (w : world) :
  filter_m (keep_version m4) links w =
  (w, match kept_links m4 links with
      | Some ys => Ok ys
      | None => Raise ValueError
      end).
Proof.
  induction links as [|l rest IH]; [reflexivity|].
  cbn [filter_m kept_links]. unfold bind at 1. unfold keep_version at 1.
  destruct (label_major (text l)) as [m|]; cbn; [|reflexivity].
  unfold bind at 1. rewrite IH.
  destruct (kept_links m4 rest); reflexivity.
Qed.

Lemma filter_version_links_run (mv : option Z) (links : list link) (w : world) :
  snd (filter_version_links mv links w) =
    match kept_version_links mv links with
    | Some ys => Ok ys
    | None => Raise ValueError
    end /\
  same_db (fst (filter_version_links mv links w)) w.
Proof.
  unfold filter_version_links, kept_version_links.
  destruct (watermark mv) as [wm|]; [|split; [reflexivity | apply same_db_refl]].
  unfold bind, logger_info, add_log. cbn.
  rewrite filter_m_keep_version_run. cbn. now repeat split.
Qed.

Lemma kept_links_none (m4 : Z) (links : list link) (l : link) :
  In l links -> label_major (text l) = None -> kept_links m4 links = None.
Proof.
  induction links as [|x rest IH]; intros Hin Hl; [destruct Hin|].
  cbn [kept_links]. destruct Hin as [->|Hin]; [now rewrite Hl|].
  destruct (label_major (text x)); [|reflexivity]. now rewrite (IH Hin Hl).
Qed.

Lemma kept_links_spec (m4 : Z) (links : list link) :
  forall kept,
    kept_links m4 links = Some kept ->
    forall l,
      (In l kept -> In l links) /\
      (In l links ->
       exists m, label_major (text l) = Some m /\
                 (In l kept <->
                  (m4 <=? m) || PyStr.contains "esr" (text l) = true)).
Proof.
  induction links as [|x rest IH]; cbn [kept_links]; intros kept H l.
  - injection H as <-. split; [auto | intros []].
  - destruct (label_major (text x)) as [m|] eqn:Hm; [|discriminate H].
    destruct (kept_links m4 rest) as [ys|]; [|discriminate H].
    injection H as <-. specialize (IH ys eq_refl l). destruct IH as (IH1 & IH2).
    destruct ((m4 <=? m) || PyStr.contains "esr" (text x)) eqn:Hc.
    + split.
      * intros [->|Hin]; [now left | right; auto].
      * intros [->|Hin].
        -- exists m. split; [exact Hm|]. rewrite Hc. split; [auto | now left].
        -- destruct (IH2 Hin) as (m' & Hm' & Hiff). exists m'.
           split; [exact Hm'|]. rewrite <- Hiff. split; [|now right].
           intros [->|Hk]; [|exact Hk]. apply Hiff.
           rewrite Hm in Hm'. injection Hm' as <-. exact Hc.
    + split.
      * intros Hin. right. auto.
      * intros [->|Hin].
        -- exists m. split; [exact Hm|]. rewrite Hc. split; [|discriminate].
           intros Hin. destruct (IH2 (IH1 Hin)) as (m' & Hm' & Hiff).
           rewrite Hm in Hm'. injection Hm' as <-. rewrite <- Hc. now apply Hiff.
        -- apply IH2, Hin.
Qed.

Lemma isdigit_not_dot (c : ascii) :
  PyStr.isdigit c = true -> Ascii.eqb c "." = false.
Proof.
  intros H. destruct (Ascii.eqb c ".") eqn:Hdot; [|reflexivity].
  apply Ascii.eqb_eq in Hdot. subst c. discriminate H.
Qed.

Lemma label_major_nonneg (label : string) (m : Z) :
  PyStr.head_isdigit label = true -> label_major label = Some m -> 0 <= m.
Proof.
  destruct label as [|c r]; [discriminate|]. cbn [PyStr.head_isdigit].
  intros Hc. unfold label_major.
  rewrite first_field_cons, (isdigit_not_dot c Hc), (int_unsigned c _ Hc).
  destruct (PyStr.int_digits _ _ _) as [n|]; [|discriminate].
  cbn. intros [= <-]. lia.
Qed.

Lemma watermark_some (mv : option Z) (wm : Z) :
  watermark mv = Some wm <-> mv = Some wm /\ wm <> 0.
Proof.
  unfold watermark. destruct mv as [x|]; [|split; [discriminate | now intros []]].
  destruct (x =? 0) eqn:Hx.
  - apply Z.eqb_eq in Hx. split; [discriminate|]. intros ([= <-] & Hne). lia.
  - apply Z.eqb_neq in Hx. split.
    + intros [= <-]. auto.
    + now intros ([= <-] & _).
Qed.

Lemma watermark_none (mv : option Z) :
  watermark mv = None <-> mv = None \/ mv = Some 0.
Proof.
  unfold watermark. destruct mv as [x|]; [|tauto].
  destruct (x =? 0) eqn:Hx.
  - apply Z.eqb_eq in Hx. subst x. tauto.
  - apply Z.eqb_neq in Hx. split; [discriminate|].
    intros [H|[= H]]; [discriminate | lia].
Qed.

Lemma kept_version_links_incl (mv1 mv2 : option Z) (links k1 k2 : list link) :
  major_le mv1 mv2 ->
  Forall (fun l => PyStr.head_isdigit (text l) = true) links ->
  kept_version_links mv1 links = Some k1 ->
  kept_version_links mv2 links = Some k2 ->
  incl k2 k1.
Proof.
  unfold kept_version_links. intros Hle Hdigit H1 H2 l Hin.
  rewrite Forall_forall in Hdigit.
  assert (Hlinks : In l links).
  { destruct (watermark mv2); [|now injection H2 as <-].
    now apply (kept_links_spec _ _ _ H2 l). }
  destruct (watermark mv1) as [a|] eqn:Ha; [|now injection H1 as <-].
  apply watermark_some in Ha. destruct Ha as (-> & Hane).
  destruct mv2 as [b|]; [|contradiction]. cbn in Hle.
  destruct (proj2 (kept_links_spec _ _ _ H1 l) Hlinks) as (m & Hm & Hiff).
  apply Hiff.
  destruct (watermark (Some b)) as [b'|] eqn:Hb.
  - apply watermark_some in Hb. destruct Hb as ([= <-] & _).
    destruct (proj2 (kept_links_spec _ _ _ H2 l) Hlinks) as (m' & Hm' & Hiff').
    rewrite Hm in Hm'. injection Hm' as <-. apply Hiff' in Hin.
    apply orb_true_iff in Hin. apply orb_true_iff.
    destruct Hin as [Hin|Hin]; [left | now right].
    apply Z.leb_le in Hin. apply Z.leb_le. lia.
  - apply watermark_none in Hb. destruct Hb as [Hb|[= ->]]; [discriminate|].
    pose proof (label_major_nonneg _ m (Hdigit l Hlinks) Hm).
    apply orb_true_iff. left. apply Z.leb_le. lia.
Qed.

Lemma major_le_refl (a : option Z) : major_le a a.
Proof. destruct a; cbn; lia. Qed.

Lemma major_le_trans (a b c : option Z) :
  major_le a b -> major_le b c -> major_le a c.
Proof. destruct a, b, c; cbn; try lia; tauto. Qed.

Lemma max_major_version_app (product : string) (t extra : list row) :
  major_le (max_major_version product t)
           (max_major_version product (t ++ extra)).
Proof.
  unfold max_major_version. rewrite fold_left_app.
  generalize (fold_left
    (fun acc r =>
       if String.eqb (product_name r) product
       then match acc with
            | None => Some (major_version r)
            | Some m => Some (Z.max m (major_version r))
            end
       else acc) t None).
  induction extra as [|r rest IH]; intros acc; cbn [fold_left].
  - apply major_le_refl.
  - eapply major_le_trans; [|apply IH].
    destruct (String.eqb (product_name r) product); [|apply major_le_refl].
    destruct acc; cbn; lia.
Qed.

Lemma version_links_digit (E : env) (content : string) :
  Forall (fun l => PyStr.head_isdigit (text l) = true) (version_links_of E content).
Proof.
  apply Forall_forall. intros l Hin. unfold version_links_of in Hin.
  now apply filter_In in Hin.
Qed.

(** The walk of a product: either it stops before the first version, or it
    goes through the versions that the watermark keeps. *)
Lemma scrape_candidates_run (E : env) (product dir : string) (w : world) :
  exists w',
    same_db w' w /\
    ((exists e, scrape_candidates E product dir w = (w', Raise e)) \/
     (exists c1 c2 kept,
        download_value E ("/pub/" ++ dir ++ "/releases/") = Ok c1 /\
        download_value E ("/pub/" ++ dir ++ "/candidates/") = Ok c2 /\
        kept_version_links (max_major_version product (table w))
                           (version_links_of E c2) = Some kept /\
        scrape_candidates E product dir w =
          for_each (scrape_version E product (final_releases_of E c1)) kept w')).
Proof.
  assert (Hshape :
    scrape_candidates E product dir w =
    bind (download E ("/pub/" ++ dir ++ "/releases/"))
      (fun c1 =>
         bind (download E ("/pub/" ++ dir ++ "/candidates/"))
           (fun c2 =>
              bind (filter_version_links
                      (max_major_version product (table w))
                      (version_links_of E c2))
                   (for_each (scrape_version E product
                                (final_releases_of E c1))))) w)
    by reflexivity.
  rewrite Hshape. clear Hshape.
  destruct (download_run E ("/pub/" ++ dir ++ "/releases/") w) as (Hv1 & Hdb1 & _).
  destruct (bind_cases (download E ("/pub/" ++ dir ++ "/releases/"))
              (fun c1 =>
                 bind (download E ("/pub/" ++ dir ++ "/candidates/"))
                   (fun c2 =>
                      bind (filter_version_links
                              (max_major_version product (table w))
                              (version_links_of E c2))
                           (for_each (scrape_version E product
                                        (final_releases_of E c1))))) w)
    as [(e & _ & Hb) | (c1 & Hc1 & Hb)]; rewrite Hb; clear Hb;
    [eexists; split; [exact Hdb1 | left; now exists e]|].
  rewrite Hv1 in Hc1.
  set (wa := fst (download E ("/pub/" ++ dir ++ "/releases/") w)) in *.
  destruct (download_run E ("/pub/" ++ dir ++ "/candidates/") wa) as (Hv2 & Hdb2 & _).
  destruct (bind_cases (download E ("/pub/" ++ dir ++ "/candidates/"))
              (fun c2 =>
                 bind (filter_version_links
                         (max_major_version product (table w))
                         (version_links_of E c2))
                      (for_each (scrape_version E product
                                   (final_releases_of E c1)))) wa)
    as [(e & _ & Hb) | (c2 & Hc2 & Hb)]; rewrite Hb; clear Hb;
    [eexists; split; [eapply same_db_trans; eassumption | left; now exists e]|].
  rewrite Hv2 in Hc2.
  set (wb := fst (download E ("/pub/" ++ dir ++ "/candidates/") wa)) in *.
  destruct (filter_version_links_run (max_major_version product (table w))
              (version_links_of E c2) wb) as (Hv3 & Hdb3).
  assert (Hdb : same_db
                  (fst (filter_version_links
                          (max_major_version product (table w))
                          (version_links_of E c2) wb)) w).
  { eapply same_db_trans; [exact Hdb3|].
    eapply same_db_trans; eassumption. }
  destruct (bind_cases (filter_version_links
                          (max_major_version product (table w))
                          (version_links_of E c2))
              (for_each (scrape_version E product (final_releases_of E c1))) wb)
    as [(e & _ & Hb) | (kept & Hk & Hb)]; rewrite Hb; clear Hb;
    (eexists; split; [exact Hdb|]); [left; now exists e|].
  right. exists c1, c2, kept. rewrite Hv3 in Hk.
  destruct (kept_version_links (max_major_version product (table w))
              (version_links_of E c2)); [|discriminate Hk].
  injection Hk as ->. auto.
Qed.

(** C5: with the table that the specification describes, when the walk of
    a product has returned, walking the product again on the same archive,
    from any world that holds the table the first walk left, inserts
    nothing: the table and the counter of successful inserts are unchanged
    and every statement of the second walk is a duplicate. *)
Theorem scrape_candidates_idempotent (E : env) (product dir : string)
  (w0 w1 w : world) :
  cursor_execute E = catalog_execute ->
  scrape_candidates E product dir w0 = (w1, Ok tt) ->
  table w = table w1 ->
  let w2 := fst (scrape_candidates E product dir w) in
  table w2 = table w /\
  successful_inserts w2 = successful_inserts w /\
  exists rows, statements w2 = (statements w ++ duplicates rows)%list.
Proof.
  intros catalog Hfirst Hsame. cbv zeta.
  destruct (scrape_candidates_run E product dir w0)
    as (w0' & Hdb0 & [(e & He) | (c1 & c2 & kept1 & Hc1 & Hc2 & Hk1 & Hrun1)]);
    [congruence|].
  rewrite Hfirst in Hrun1. symmetry in Hrun1.
  destruct (walk_records _ (Oblivious_scrape_version E catalog product
                              (final_releases_of E c1)) _ _ _ Hrun1)
    as ((extra & Hextra) & Hrows).
  destruct Hdb0 as (Ht0 & _). rewrite Ht0 in Hextra.
  destruct (scrape_candidates_run E product dir w)
    as (w' & Hdb1 & [(e & He) | (c1' & c2' & kept2 & Hc1' & Hc2' & Hk2 & Hrun2)]).
  - rewrite He. cbn [fst]. destruct Hdb1 as (Ht & Hs & Hc).
    rewrite Ht, Hs, Hc. repeat split. exists []. cbn. now rewrite app_nil_r.
  - rewrite Hc1 in Hc1'. injection Hc1' as <-.
    rewrite Hc2 in Hc2'. injection Hc2' as <-.
    assert (Hincl : incl kept2 kept1).
    { eapply kept_version_links_incl;
        [|apply version_links_digit | exact Hk1 | exact Hk2].
      rewrite Hsame, Hextra. apply max_major_version_app. }
    destruct Hdb1 as (Ht & Hs & Hc).
    destruct (walk_again (scrape_version E product (final_releases_of E c1))
                kept2 w') as (rows & _ & Htable & Hcount & Hstmts).
    { intros l Hin. rewrite Ht, Hsame. apply Hrows, Hincl, Hin. }
    rewrite Hrun2, Htable, Hcount, Hstmts, Ht, Hs, Hc.
    repeat split. now exists rows.
Qed.

(** On the example archive the first walk of Firefox inserts four rows; a
    second run, whose counter starts at zero on the table of the first,
    inserts none. *)
Lemma scrape_candidates_idempotent_witness :
  let w2 := fst (scrape_candidates Example.archive "Firefox" "firefox"
                   Example.second_start) in
  successful_inserts Example.first_walk = 4 /\
  successful_inserts Example.second_start = 0 /\
  table w2 = table Example.second_start /\
  successful_inserts w2 = successful_inserts Example.second_start /\
  exists rows,
    statements w2 = (statements Example.second_start ++ duplicates rows)%list.
Proof.
  cbv zeta. split; [vm_compute; reflexivity|]. split; [reflexivity|].
  assert (Hfirst : scrape_candidates Example.archive "Firefox" "firefox"
                     new_world = (Example.first_walk, Ok tt))
    by (vm_compute; reflexivity).
  assert (Hsame : table Example.second_start = table Example.first_walk)
    by (unfold Example.second_start; reflexivity).
  exact (scrape_candidates_idempotent Example.archive "Firefox" "firefox"
           new_world Example.first_walk Example.second_start
           (eq_refl catalog_execute) Hfirst Hsame).
Defined.

(** ** The watermark *)








(** * Further properties of the job *)

(** ** What a walk sends and counts *)

Lemma inserted_app (a b : list (row * verdict)) :
  inserted (a ++ b) = inserted a + inserted b.
Proof.
  induction a as [|[r v] t IH]; [reflexivity|].
  destruct v; cbn [inserted app]; rewrite IH; lia.
Qed.

Lemma emits_silent {A} (P : row -> Prop) (Q : A -> Prop) (m : M A) :
  (forall w, same_db (fst (m w)) w) ->
  (forall w a, snd (m w) = Ok a -> Q a) ->
  emits P Q m.
Proof.
  intros Hdb HQ w. destruct (Hdb w) as (_ & Hs & Hc). exists [].
  rewrite Hs, Hc, app_nil_r. cbn. repeat split; [constructor | lia | apply HQ].
Qed.

Lemma emits_ret {A} (P : row -> Prop) (Q : A -> Prop) (a : A) :
  Q a -> emits P Q (ret a).
Proof.
  intros H. apply emits_silent; [intros w; apply same_db_refl|].
  cbn. now intros w a' [= <-].
Qed.

Lemma emits_raise {A} (P : row -> Prop) (Q : A -> Prop) (e : exn) :
  emits P Q (raise e).
Proof.
  apply emits_silent; [intros w; apply same_db_refl | discriminate].
Qed.

Lemma emits_bind {A B} (P : row -> Prop) (Q : A -> Prop) (R : B -> Prop)
  (m : M A) (k : A -> M B) :
  emits P Q m -> (forall a, Q a -> emits P R (k a)) -> emits P R (bind m k).
Proof.
  intros Hm Hk w. destruct (Hm w) as (tr & Hs & HP & Hc & HQ). unfold bind.
  destruct (m w) as [w1 [a|e]]; cbn [fst snd] in *.
  - destruct (Hk a (HQ a eq_refl) w1) as (tr' & Hs' & HP' & Hc' & HR).
    exists (tr ++ tr')%list. rewrite Hs', Hs, Hc', Hc, inserted_app, app_assoc.
    repeat split; [now apply Forall_app | lia | exact HR].
  - exists tr. repeat split; auto. discriminate.
Qed.

Lemma emits_weaken {A} (P : row -> Prop) (Q Q' : A -> Prop) (m : M A) :
  (forall a, Q a -> Q' a) -> emits P Q m -> emits P Q' m.
Proof.
  intros H Hm w. destruct (Hm w) as (tr & Hs & HP & Hc & HQ).
  exists tr. repeat split; auto.
Qed.

Lemma emits_for_each {A} (P : row -> Prop) (body : A -> M unit) (xs : list A) :
  (forall x, In x xs -> emits P (fun _ => True) (body x)) ->
  emits P (fun _ => True) (for_each body xs).
Proof.
  induction xs as [|x rest IH]; intros H; cbn [for_each].
  - now apply emits_ret.
  - eapply emits_bind; [apply H; now left|].
    intros _ _. apply IH. intros y Hy. apply H. now right.
Qed.

Lemma emits_add_log (P : row -> Prop) (r : log_record) :
  emits P (fun _ => True) (add_log r).
Proof. apply emits_silent; [intros w; now repeat split | auto]. Qed.

Lemma emits_download (E : env) (P : row -> Prop) (url_path : string) :
  emits P (fun c => download_value E url_path = Ok c) (download E url_path).
Proof.
  apply emits_silent; intros w.
  - apply download_run.
  - intros c Hc. destruct (download_run E url_path w) as (Hv & _). congruence.
Qed.

Lemma emits_insert_build (E : env) (P : row -> Prop) (r : row) :
  P r -> emits P (fun _ => True) (insert_build E r).
Proof.
  intros HP w.
  unfold insert_build, bind, try_except, when, execute_insert, count_insert,
    logger_info, logger_exception, add_log, ret.
  destruct (verbose E); cbn;
    destruct (cursor_execute E (table w) r); cbn;
    eexists [(r, _)]; cbn; repeat split; auto; lia.
Qed.

Lemma emits_insert_rows (E : env) (P : row -> Prop) (d : build_data)
  (version_root rc : string) (final_build : bool) :
  Forall P (matrix_rows d version_root rc final_build) ->
  emits P (fun _ => True) (insert_rows E d version_root rc final_build).
Proof.
  unfold matrix_rows, insert_rows. cbv zeta.
  destruct final_build; destruct (is_release (d_release_channel d));
    intros H; repeat
      match goal with
      | H : Forall _ (_ :: _) |- _ => inversion H; subst; clear H
      end;
    first [ eapply emits_bind; [apply emits_insert_build; eassumption|];
            intros _ _; apply emits_insert_build; eassumption
          | apply emits_insert_build; eassumption ].
Qed.

Lemma emits_or_raise {A} (P : row -> Prop) (e : exn) (o : option A) :
  emits P (fun _ => True) (or_raise e o).
Proof. destruct o; [now apply emits_ret | apply emits_raise]. Qed.

Lemma emits_getitem (P : row -> Prop) (v : json) (k : string) :
  emits P (fun _ => True) (getitem v k).
Proof.
  unfold getitem. destruct v; try apply emits_raise.
  destruct (find _ _); [now apply emits_ret | apply emits_raise].
Qed.

Lemma emits_str_of (P : row -> Prop) (v : json) :
  emits P (fun _ => True) (str_of v).
Proof. destruct v; first [now apply emits_ret | apply emits_raise]. Qed.

(** The data that [read_build_data] returns carry the product and the URL
    of the file. *)
Lemma emits_read_build_data (E : env) (P : row -> Prop)
  (product json_link : string) (data : json) :
  emits P (fun d => d_product_name d = product /\
                    d_archive_url d = url_of E json_link)
        (read_build_data E product json_link data).
Proof.
  unfold read_build_data.
  destruct (PyStr.contains "buildhub" json_link);
    repeat (eapply emits_bind with (Q := fun _ => True);
            [first [apply emits_getitem | apply emits_str_of | apply emits_or_raise]
            | intros ? _]);
    apply emits_ret; split; reflexivity.
Qed.

Lemma emits_scrape_json_link (E : env) (P : row -> Prop)
  (product version_root : string) (is_final_release : bool)
  (build_count i : nat) (build_link : link) (json_link : string) :
  (forall d rc final_build,
     d_product_name d = product ->
     (final_build = true -> is_final_release = true) ->
     Forall P (matrix_rows d version_root rc final_build)) ->
  emits P (fun _ => True)
        (scrape_json_link E product version_root is_final_release
                          build_count i build_link json_link).
Proof.
  intros H. unfold scrape_json_link.
  eapply emits_bind; [apply emits_download | intros json_file _].
  eapply emits_bind with (Q := fun _ => True).
  { destruct (json_loads E json_file); [now apply emits_ret | apply emits_raise]. }
  intros data _.
  eapply emits_bind; [apply emits_read_build_data | intros d (Hd & _)].
  cbv zeta. apply emits_insert_rows, H; [exact Hd|].
  intros Hf. apply andb_true_iff in Hf. tauto.
Qed.

Lemma emits_get_json_links (E : env) (P : row -> Prop) (build_path : string) :
  emits P (fun _ => True) (get_json_links E build_path).
Proof.
  apply emits_silent; [|auto]. intros w. unfold get_json_links.
  destruct (download_run E build_path w) as (_ & Hdb & _). unfold bind.
  destruct (download E build_path w) as [w1 [c|e]]; cbn [fst snd] in *;
    [|exact Hdb].
  eapply same_db_trans; [|exact Hdb]. clear. generalize (@nil string).
  revert w1.
  induction (map path (filter (fun l => PyStr.endswith "/" (text l))
                              (get_links E c))) as [|d rest IH];
    intros w1 acc; cbn [for_fold]; [apply same_db_refl|].
  destruct (json_links_step_run E acc d w1) as (_ & Hdb & _). unfold bind.
  destruct (json_links_step E acc d w1) as [w2 [acc'|e]]; cbn [fst snd] in *;
    [|exact Hdb].
  eapply same_db_trans; [apply IH | exact Hdb].
Qed.

Lemma emits_scrape_version (E : env) (P : row -> Prop) (product : string)
  (final_releases : list string) (l : link) :
  (forall d version_root rc final_build,
     d_product_name d = product ->
     version_root_of l = Some version_root ->
     (final_build = true -> In version_root final_releases) ->
     Forall P (matrix_rows d version_root rc final_build)) ->
  emits P (fun _ => True) (scrape_version E product final_releases l).
Proof.
  intros H. unfold scrape_version.
  eapply emits_bind; [apply emits_download | intros content _].
  eapply emits_bind
    with (Q := fun v => nth_error (PyStr.split "/" (path l)) 4 = Some v).
  { unfold index. destruct (nth_error (PyStr.split "/" (path l)) 4);
      [now apply emits_ret | apply emits_raise]. }
  intros v Hv. cbv zeta.
  eapply emits_bind with (Q := fun _ => True).
  { destruct (sort_build_links _); [now apply emits_ret | apply emits_raise]. }
  intros build_links _. apply emits_for_each. intros ib _.
  unfold scrape_build. cbv zeta.
  eapply emits_bind; [apply emits_get_json_links | intros [|j js] _].
  - apply emits_add_log.
  - apply emits_for_each. intros json_link _.
    apply emits_scrape_json_link. intros d rc final_build Hd Hfinal.
    apply H; [exact Hd | unfold version_root_of; now rewrite Hv |].
    intros Hf. apply Hfinal in Hf. apply existsb_exists in Hf.
    destruct Hf as (x & Hin & Heq). apply String.eqb_eq in Heq. now subst x.
Qed.

Lemma matrix_rows_walk_row (product : string) (final_releases : list string)
  (d : build_data) (version_root rc : string) (final_build : bool) :
  d_product_name d = product ->
  (final_build = true -> In version_root final_releases) ->
  Forall (walk_row product final_releases)
         (matrix_rows d version_root rc final_build).
Proof.
  intros Hd Hfinal. unfold matrix_rows, walk_row. cbv zeta.
  destruct final_build; destruct (is_release (d_release_channel d)) eqn:Hr;
    repeat constructor; cbn; auto; try discriminate;
    rewrite ?Hr; discriminate.
Qed.

Lemma emits_scrape_candidates (E : env) (product dir : string) :
  emits (walk_row product
           (final_releases_of E (page E ("/pub/" ++ dir ++ "/releases/"))))
        (fun _ => True)
        (scrape_candidates E product dir).
Proof.
  unfold scrape_candidates. cbv zeta.
  eapply emits_bind with (Q := fun _ => True).
  { apply emits_silent; [intros w; apply same_db_refl | auto]. }
  intros mv _.
  eapply emits_bind; [apply emits_download | intros c1 Hc1].
  eapply emits_bind; [apply emits_download | intros c2 _].
  eapply emits_bind with (Q := fun _ => True).
  { apply emits_silent; [|auto]. intros w. apply filter_version_links_run. }
  intros kept _. apply emits_for_each. intros l _.
  apply emits_scrape_version. intros d version_root rc final_build Hd _ Hfinal.
  apply matrix_rows_walk_row; [exact Hd|].
  unfold page. rewrite Hc1. exact Hfinal.
Qed.

Lemma emits_rows_weaken {A} (P P' : row -> Prop) (Q : A -> Prop) (m : M A) :
  (forall r, P r -> P' r) -> emits P Q m -> emits P' Q m.
Proof.
  intros H Hm w. destruct (Hm w) as (tr & Hs & HP & Hc & HQ).
  exists tr. repeat split; auto.
  eapply Forall_impl; [|exact HP]. intros x. apply H.
Qed.

Lemma inserted_bounds (tr : list (row * verdict)) :
  0 <= inserted tr <= Z.of_nat (List.length tr).
Proof.
  induction tr as [|[r v] t IH]; [cbn; lia|].
  destruct v; cbn [inserted List.length]; lia.
Qed.

(** X1: whatever the archive and the database answer, and also when it
    raises, the walk of a product only adds statements, and the counter of
    successful inserts grows by exactly the number of statements that
    stored a row. *)
Theorem scrape_candidates_counts_stored_rows (E : env) (product dir : string)
  (w : world) :
  exists tr,
    statements (fst (scrape_candidates E product dir w)) =
      (statements w ++ tr)%list /\
    successful_inserts (fst (scrape_candidates E product dir w)) =
      successful_inserts w + inserted tr /\
    0 <= inserted tr <= Z.of_nat (List.length tr).
Proof.
  destruct (emits_scrape_candidates E product dir w) as (tr & Hs & _ & Hc & _).
  exists tr. split; [exact Hs|]. split; [exact Hc|]. apply inserted_bounds.
Qed.

(** X2: every row that the walk of a product sends to the database carries
    the name of that product. *)
Theorem scrape_candidates_rows_of_product (E : env) (product dir : string)
  (w : world) :
  exists tr,
    statements (fst (scrape_candidates E product dir w)) =
      (statements w ++ tr)%list /\
    Forall (fun x => product_name (fst x) = product) tr.
Proof.
  destruct (emits_scrape_candidates E product dir w) as (tr & Hs & HP & _).
  exists tr. split; [exact Hs|].
  eapply Forall_impl; [|exact HP]. now intros x (H & _).
Qed.

(** X3: a row that the walk of a product sends in the release channel has
    for version string the name of a final release, one of the entries of
    the product's releases listing whose text starts with a digit, without
    its trailing slashes; every other row goes to another channel. *)
Theorem scrape_candidates_release_rows (E : env) (product dir : string)
  (w : world) :
  exists tr,
    statements (fst (scrape_candidates E product dir w)) =
      (statements w ++ tr)%list /\
    Forall (fun x =>
              release_channel (fst x) = JString "release" ->
              In (version_string (fst x))
                 (final_releases_of E (page E ("/pub/" ++ dir ++ "/releases/"))))
           tr.
Proof.
  destruct (emits_scrape_candidates E product dir w) as (tr & Hs & HP & _).
  exists tr. split; [exact Hs|].
  eapply Forall_impl; [|exact HP]. intros x (_ & H) Hr. apply H.
  now apply is_release_iff.
Qed.

Lemma emits_run (E : env) : emits (fun _ => True) (fun _ => True) (run E).
Proof.
  unfold run.
  repeat (eapply emits_bind with (Q := fun _ => True);
          [eapply emits_rows_weaken; [|apply emits_scrape_candidates]; auto
          | intros _ _]).
  apply emits_silent; [|auto]. intros w. now repeat split.
Qed.

Lemma run_last_step (E : env) (w w' : world) :
  run E w = (w', Ok tt) ->
  exists w3,
    w' = fst (log_inserted w3) /\
    log w' = (log w3 ++ [LogInfo (MsgInserted (successful_inserts w3))])%list /\
    successful_inserts w' = successful_inserts w3.
Proof.
  unfold run. intros H.
  repeat
    match type of H with
    | bind ?m ?k ?w0 = _ =>
        destruct (bind_cases m k w0) as [(e & _ & Hb) | ([] & _ & Hb)];
        rewrite Hb in H; clear Hb; [discriminate H|]
    end.
  match type of H with log_inserted ?w3 = _ => exists w3 end.
  rewrite H. cbn [fst]. split; [reflexivity|].
  unfold log_inserted, logger_info, add_log in H. injection H as <-.
  split; reflexivity.
Qed.

(** X4: when [run] returns, the last record of the log is the line
    "Inserted n builds." and n is the counter at the start of the run plus
    the number of statements of the run that stored a row. *)
Theorem run_reports_stored_rows (E : env) (w w' : world) :
  run E w = (w', Ok tt) ->
  exists tr earlier,
    statements w' = (statements w ++ tr)%list /\
    log w' =
      (earlier ++ [LogInfo (MsgInserted (successful_inserts w + inserted tr))])%list.
Proof.
  intros Hrun. destruct (emits_run E w) as (tr & Hs & _ & Hc & _).
  destruct (run_last_step E w w' Hrun) as (w3 & _ & Hlog & Hcount).
  rewrite Hrun in Hs, Hc. cbn [fst] in Hs, Hc.
  exists tr, (log w3). split; [exact Hs|]. rewrite Hlog. congruence.
Qed.

Lemma run_reports_stored_rows_witness :
  exists tr earlier,
    statements Example.after_run = ([] ++ tr)%list /\
    log Example.after_run =
      (earlier ++ [LogInfo (MsgInserted (0 + inserted tr))])%list.
Proof.
  assert (Hrun : run Example.archive new_world = (Example.after_run, Ok tt))
    by (vm_compute; reflexivity).
  exact (run_reports_stored_rows Example.archive new_world Example.after_run Hrun).
Defined.

Example after_run_log :
  log Example.after_run = [LogInfo (MsgInserted 4)].
Proof. vm_compute. reflexivity. Qed.

(** ** The listing parser *)

(** X5: every link that [get_links] returns comes from an anchor of the
    page and has a non-empty path and a non-empty text other than "." and
    ".."; its text has a first character, so that [link['text'][0]] never
    raises, and the links are no more than the anchors. *)
Theorem get_links_wellformed (E : env) (content : string) :
  Forall (fun l =>
            In {| href := Some (path l); elem_text := Some (text l) |}
               (pq_anchors E content) /\
            path l <> "" /\
            (exists c r, text l = String c r) /\
            text l <> "." /\ text l <> "..")
         (get_links E content) /\
  (List.length (get_links E content) <= List.length (pq_anchors E content))%nat.
Proof.
  unfold get_links.
  induction (pq_anchors E content) as [|[h t] rest IH]; cbn [flat_map];
    [split; [constructor | cbn; lia]|].
  destruct IH as (IH & Hlen). cbn [href elem_text].
  assert (Hrest : Forall (fun l =>
            In {| href := Some (path l); elem_text := Some (text l) |}
               ({| href := h; elem_text := t |} :: rest) /\
            path l <> "" /\ (exists c r, text l = String c r) /\
            text l <> "." /\ text l <> "..")
          (flat_map
             (fun elem =>
                match href elem, elem_text elem with
                | Some h, Some t =>
                    if nonempty h && nonempty t &&
                       negb (String.eqb t "." || String.eqb t "..")
                    then [ {| path := h; text := t |} ]
                    else []
                | _, _ => []
                end) rest)).
  { eapply Forall_impl; [|exact IH]. intros l (Hin & H). split; [now right | exact H]. }
  destruct h as [h|]; [|split; [exact Hrest | cbn [List.length app]; lia]].
  destruct t as [t|]; [|split; [exact Hrest | cbn [List.length app]; lia]].
  destruct (nonempty h && nonempty t &&
            negb (String.eqb t "." || String.eqb t "..")) eqn:Hkeep;
    [|split; [exact Hrest | cbn [List.length app]; lia]].
  split; [|cbn [List.length app]; lia].
  cbn [app]. constructor; [|exact Hrest].
  apply andb_true_iff in Hkeep. destruct Hkeep as (Hkeep & Hdots).
  apply andb_true_iff in Hkeep. destruct Hkeep as (Hh & Ht).
  apply negb_true_iff, orb_false_iff in Hdots. destruct Hdots as (Hd1 & Hd2).
  apply String.eqb_neq in Hd1, Hd2. unfold nonempty in Hh, Ht.
  apply negb_true_iff, String.eqb_neq in Hh. apply negb_true_iff, String.eqb_neq in Ht.
  cbn [path text]. split; [now left|]. split; [exact Hh|].
  split; [|split; assumption].
  destruct t as [|c r]; [congruence | now exists c, r].
Qed.

(** ** The platforms that are visited *)

Lemma prefix_of_nil {A} (l : list A) : prefix_of [] l.
Proof. now exists l. Qed.

Lemma prefix_of_cons {A} (x : A) (a b : list A) :
  prefix_of a b -> prefix_of (x :: a) (x :: b).
Proof. intros (rest & ->). now exists rest. Qed.

Lemma for_fold_json_links_visited (E : env) (dirs : list string) :
  forall acc w,
    requests (fst (for_fold (json_links_step E) dirs acc w)) =
      (requests w ++
       map (fun d => url_of E (d ++ "en-US/")) (visited_until_fault E dirs))%list.
Proof.
  induction dirs as [|d rest IH]; intros acc w;
    cbn [for_fold visited_until_fault].
  - cbn. now rewrite app_nil_r.
  - destruct (json_links_step_run E acc d w) as (Hv & _ & Hreq).
    destruct (excluded d) eqn:Hx.
    + rewrite (json_links_step_answered E acc d) in Hv by now rewrite Hx.
      rewrite (bind_run _ _ _ _ Hv), IH, Hreq, app_nil_r. reflexivity.
    + destruct (answers E (d ++ "en-US/")) eqn:Ha.
      * rewrite (json_links_step_answered E acc d) in Hv by now rewrite Hx, Ha.
        rewrite (bind_run _ _ _ _ Hv), IH, Hreq, <- app_assoc. reflexivity.
      * rewrite (json_links_step_fault E acc d) in Hv by now rewrite Hx, Ha.
        rewrite (bind_stop _ _ _ _ Hv). cbn [fst]. rewrite Hreq. reflexivity.
Qed.

Lemma visited_until_fault_prefix (E : env) (dirs : list string) :
  prefix_of (visited_until_fault E dirs)
            (filter (fun d => negb (excluded d)) dirs).
Proof.
  induction dirs as [|d rest IH]; cbn [visited_until_fault filter];
    [apply prefix_of_nil|].
  destruct (excluded d); cbn [negb]; [exact IH|].
  destruct (answers E (d ++ "en-US/")).
  - now apply prefix_of_cons.
  - apply prefix_of_cons, prefix_of_nil.
Qed.

Lemma visited_until_fault_all (E : env) (dirs : list string) :
  forallb (fun d => excluded d || answers E (d ++ "en-US/")) dirs = true ->
  visited_until_fault E dirs = filter (fun d => negb (excluded d)) dirs.
Proof.
  induction dirs as [|d rest IH]; cbn [visited_until_fault filter forallb];
    [reflexivity|].
  intros H. apply andb_true_iff in H. destruct H as (Hd & Hrest).
  destruct (excluded d); cbn [negb orb] in *; [now apply IH|].
  rewrite Hd. now rewrite IH.
Qed.

(** X6: whatever the archive answers, [get_json_links] requests the build
    directory and then, when that request is answered, the en-US listing
    of every platform directory that is not excluded, in listing order and
    one request each, up to and including the first one on which the
    connection fails.  So it never requests the en-US listing of a
    directory whose path contains one of NON_PLATFORM_SUBSTRINGS, and when
    it returns it has requested the en-US listing of every other one. *)
Theorem get_json_links_requests (E : env) (build_path : string) (w : world) :
  let dirs := directory_links E (page E build_path) in
  let visited :=
    if answers E build_path then visited_until_fault E dirs else [] in
  requests (fst (get_json_links E build_path w)) =
    (requests w ++ url_of E build_path ::
     map (fun d => url_of E (d ++ "en-US/")) visited)%list /\
  Forall (fun d => excluded d = false) visited /\
  prefix_of visited (filter (fun d => negb (excluded d)) dirs) /\
  (forall links,
     snd (get_json_links E build_path w) = Ok links ->
     visited = filter (fun d => negb (excluded d)) dirs).
Proof.
  cbv zeta.
  assert (Hp : prefix_of
                 (if answers E build_path
                  then visited_until_fault E
                         (directory_links E (page E build_path))
                  else [])
                 (filter (fun d => negb (excluded d))
                         (directory_links E (page E build_path)))).
  { destruct (answers E build_path);
      [apply visited_until_fault_prefix | apply prefix_of_nil]. }
  split; [|split; [|split; [exact Hp|]]].
  - unfold get_json_links.
    destruct (download_run E build_path w) as (Hv & _ & Hreq).
    destruct (answers E build_path) eqn:Hans.
    + rewrite (bind_run _ _ _ _ (download_answered E build_path w Hans)).
      fold (directory_links E (page E build_path)).
      rewrite for_fold_json_links_visited, Hreq, <- app_assoc. reflexivity.
    + assert (Hr : download_value E build_path = Raise ConnectionError).
      { unfold download_value, answers in *.
        now destruct (session_get E (url_of E build_path)). }
      rewrite Hr in Hv. rewrite (bind_stop _ _ _ _ Hv). cbn [fst map].
      exact Hreq.
  - destruct Hp as (rest & Hp). apply Forall_forall. intros d Hd.
    assert (Hin : In d (filter (fun d => negb (excluded d))
                          (directory_links E (page E build_path)))).
    { rewrite Hp. apply in_or_app. now left. }
    apply filter_In in Hin. now apply negb_true_iff.
  - intros links Hres.
    destruct (answers E build_path &&
              forallb (fun d => excluded d || answers E (d ++ "en-US/"))
                      (directory_links E (page E build_path))) eqn:Hall.
    + apply andb_true_iff in Hall. destruct Hall as (Hans & Hall).
      rewrite Hans. now apply visited_until_fault_all.
    + rewrite (get_json_links_fault E build_path w Hall) in Hres.
      discriminate Hres.
Qed.

(** On the second archive with a connection that fails on the en-US
    listing of linux-i686/ in build2/: update/ is not requested, mac/ and
    linux-i686/ are, and win32/ and win64/ are not reached. *)
Lemma get_json_links_requests_witness :
  requests (fst (get_json_links Example.corner_failing_archive
                   Example.v64_build2 new_world)) =
    [ url_of Example.corner_failing_archive Example.v64_build2;
      url_of Example.corner_failing_archive
        (Example.v64_build2 ++ "mac/en-US/");
      url_of Example.corner_failing_archive
        (Example.v64_build2 ++ "linux-i686/en-US/") ] /\
  snd (get_json_links Example.corner_failing_archive Example.v64_build2
         new_world) = Raise ConnectionError.
Proof.
  split; [|reflexivity].
  exact (proj1 (get_json_links_requests Example.corner_failing_archive
                  Example.v64_build2 new_world)).
Defined.

(** ** The major version of the table *)

Lemma max_major_version_fold (product : string) (rows : list row) :
  forall (seen : list row) (acc : option Z),
    match acc with
    | None => forall r, In r seen -> product_name r <> product
    | Some m =>
        (exists r, In r seen /\ product_name r = product /\ major_version r = m) /\
        (forall r, In r seen -> product_name r = product -> major_version r <= m)
    end ->
    match fold_left
            (fun acc r =>
               if String.eqb (product_name r) product
               then match acc with
                    | None => Some (major_version r)
                    | Some m => Some (Z.max m (major_version r))
                    end
               else acc) rows acc with
    | None => forall r, In r (seen ++ rows) -> product_name r <> product
    | Some m =>
        (exists r, In r (seen ++ rows) /\ product_name r = product /\
                   major_version r = m) /\
        (forall r, In r (seen ++ rows) -> product_name r = product ->
                   major_version r <= m)
    end.
Proof.
  induction rows as [|x rest IH]; intros seen acc Hacc; cbn [fold_left].
  - now rewrite app_nil_r.
  - replace (seen ++ x :: rest)%list with ((seen ++ [x]) ++ rest)%list
      by now rewrite <- app_assoc.
    apply IH.
    destruct (String.eqb (product_name x) product) eqn:Hx.
    + apply String.eqb_eq in Hx. destruct acc as [m|].
      * destruct Hacc as ((r & Hin & Hp & Hm) & Hmax). split.
        -- destruct (Z.max_spec m (major_version x)) as [(_ & ->)|(_ & ->)].
           ++ exists x. split; [apply in_or_app; right; now left | auto].
           ++ exists r. split; [apply in_or_app; now left | auto].
        -- intros r' Hin' Hp'. apply in_app_or in Hin'.
           destruct Hin' as [Hin'|[<-|[]]]; [specialize (Hmax r' Hin' Hp')|]; lia.
      * split.
        -- exists x. split; [apply in_or_app; right; now left | auto].
        -- intros r' Hin' Hp'. apply in_app_or in Hin'.
           destruct Hin' as [Hin'|[<-|[]]]; [now apply Hacc in Hin' | lia].
    + apply String.eqb_neq in Hx. destruct acc as [m|].
      * destruct Hacc as ((r & Hin & Hp & Hm) & Hmax). split.
        -- exists r. split; [apply in_or_app; now left | auto].
        -- intros r' Hin' Hp'. apply in_app_or in Hin'.
           destruct Hin' as [Hin'|[<-|[]]]; [now apply Hmax | congruence].
      * intros r' Hin'. apply in_app_or in Hin'.
        destruct Hin' as [Hin'|[<-|[]]]; [now apply Hacc | exact Hx].
Qed.

(** X7: [get_max_major_version] leaves the world as it is and returns
    [None] exactly when the table has no row of the product; otherwise it
    returns the major version of a row of the product that no row of the
    product exceeds. *)
Theorem get_max_major_version_is_max (product : string) (w : world) :
  exists answer,
    get_max_major_version product w = (w, Ok answer) /\
    match answer with
    | None => forall r, In r (table w) -> product_name r <> product
    | Some m =>
        (exists r, In r (table w) /\ product_name r = product /\
                   major_version r = m) /\
        (forall r, In r (table w) -> product_name r = product ->
                   major_version r <= m)
    end.
Proof.
  exists (max_major_version product (table w)). split; [reflexivity|].
  apply (max_major_version_fold product (table w) [] None). intros r [].
Qed.

(** ** Reading a build info file *)

Lemma reads_only_ret {A} (a : A) : reads_only (ret a).
Proof. intros w. reflexivity. Qed.

Lemma reads_only_raise {A} (e : exn) : reads_only (@raise A e).
Proof. intros w. reflexivity. Qed.

Lemma reads_only_bind {A B} (m : M A) (k : A -> M B) :
  reads_only m -> (forall a, reads_only (k a)) -> reads_only (bind m k).
Proof.
  intros Hm Hk w. unfold bind. rewrite (Hm w), (Hm new_world). cbn [snd].
  destruct (snd (m new_world)) as [a|e]; [|reflexivity].
  rewrite (Hk a w), (Hk a new_world). reflexivity.
Qed.

Lemma reads_only_or_raise {A} (e : exn) (o : option A) : reads_only (or_raise e o).
Proof. destruct o; [apply reads_only_ret | apply reads_only_raise]. Qed.

Lemma reads_only_getitem (v : json) (k : string) : reads_only (getitem v k).
Proof.
  unfold getitem. destruct v; try apply reads_only_raise.
  destruct (find _ _); [apply reads_only_ret | apply reads_only_raise].
Qed.

Lemma reads_only_str_of (v : json) : reads_only (str_of v).
Proof. destruct v; first [apply reads_only_ret | apply reads_only_raise]. Qed.

Lemma reads_only_read_build_data (E : env) (product json_link : string)
  (data : json) : reads_only (read_build_data E product json_link data).
Proof.
  unfold read_build_data.
  destruct (PyStr.contains "buildhub" json_link);
    repeat (apply reads_only_bind;
            [first [ apply reads_only_getitem | apply reads_only_str_of
                   | apply reads_only_or_raise ]
            | intros ?]);
    apply reads_only_ret.
Qed.

Lemma getitem_field (fields : list (string * json)) (k : string) (w : world) :
  getitem (JObject fields) k w =
  (w, match field k fields with
      | Some v => Ok v
      | None => Raise KeyError
      end).
Proof.
  unfold getitem, field. now destruct (find _ fields).
Qed.

(** X8: at a link whose path contains "buildhub", an object with a
    [target] that has a [channel] and a [version] string whose first field,
    up to its first dot, is a run of decimal digits, and a [build] that has
    an [id], is read as the data of the build: the channel and the id as
    they are, the version as release version, its leading integer as major
    version and the joined URL of the link as archive URL; the world is
    left alone. *)
Theorem read_build_data_buildhub (E : env) (product json_link version : string)
  (fields target build : list (string * json)) (channel id : json) (w : world) :
  PyStr.contains "buildhub" json_link = true ->
  field "target" fields = Some (JObject target) ->
  field "channel" target = Some channel ->
  field "version" target = Some (JString version) ->
  has_decimal_major version = true ->
  field "build" fields = Some (JObject build) ->
  field "id" build = Some id ->
  read_build_data E product json_link (JObject fields) w =
  (w, Ok {| d_product_name := product;
            d_release_channel := channel;
            d_major_version := leading_integer version;
            d_release_version := version;
            d_build_id := id;
            d_archive_url := url_of E json_link |}).
Proof.
  intros Hlink Ht Hc Hv Hmajor Hb Hid. unfold read_build_data. rewrite Hlink.
  unfold bind. rewrite getitem_field, Ht, getitem_field, Hc, getitem_field, Hv.
  cbn [str_of ret]. rewrite (label_major_decimal version Hmajor).
  cbn [or_raise ret]. rewrite getitem_field, Hb, getitem_field, Hid.
  reflexivity.
Qed.

Lemma read_build_data_buildhub_witness :
  read_build_data Example.archive "Firefox" Example.linux_json
    (JObject [ ("build", JObject [("id", JString "20181015152800")]);
               ("target", JObject [ ("channel", JString "release");
                                    ("version", JString "63.0") ]) ])
    new_world =
  (new_world,
   Ok {| d_product_name := "Firefox";
         d_release_channel := JString "release";
         d_major_version := leading_integer "63.0";
         d_release_version := "63.0";
         d_build_id := JString "20181015152800";
         d_archive_url := url_of Example.archive Example.linux_json |}).
Proof.
  apply (read_build_data_buildhub Example.archive "Firefox" Example.linux_json
           "63.0" _ [ ("channel", JString "release"); ("version", JString "63.0") ]
           [("id", JString "20181015152800")]); reflexivity.
Defined.

(** X9: at a link whose path does not contain "buildhub", an object with
    the keys [moz_update_channel], [moz_app_version] (a string starting
    with its major version) and [buildid] is read as the data of the build
    in the same way. *)
Theorem read_build_data_legacy (E : env) (product json_link version : string)
  (fields : list (string * json)) (channel id : json) (w : world) :
  PyStr.contains "buildhub" json_link = false ->
  field "moz_update_channel" fields = Some channel ->
  field "moz_app_version" fields = Some (JString version) ->
  has_decimal_major version = true ->
  field "buildid" fields = Some id ->
  read_build_data E product json_link (JObject fields) w =
  (w, Ok {| d_product_name := product;
            d_release_channel := channel;
            d_major_version := leading_integer version;
            d_release_version := version;
            d_build_id := id;
            d_archive_url := url_of E json_link |}).
Proof.
  intros Hlink Hc Hv Hmajor Hid. unfold read_build_data. rewrite Hlink.
  unfold bind. rewrite getitem_field, Hc, getitem_field, Hv.
  cbn [str_of ret]. rewrite (label_major_decimal version Hmajor).
  cbn [or_raise ret]. rewrite getitem_field, Hid. reflexivity.
Qed.

Lemma read_build_data_legacy_witness :
  read_build_data Example.archive "Firefox"
    (Example.v58 ++ "build1/linux-i686/en-US/firefox-58.0b1.json")
    (JObject [ ("buildid", JString "20171103003834");
               ("moz_app_version", JString "58.0");
               ("moz_update_channel", JString "beta") ])
    new_world =
  (new_world,
   Ok {| d_product_name := "Firefox";
         d_release_channel := JString "beta";
         d_major_version := leading_integer "58.0";
         d_release_version := "58.0";
         d_build_id := JString "20171103003834";
         d_archive_url :=
           url_of Example.archive
             (Example.v58 ++ "build1/linux-i686/en-US/firefox-58.0b1.json") |}).
Proof.
  apply (read_build_data_legacy Example.archive "Firefox"
           (Example.v58 ++ "build1/linux-i686/en-US/firefox-58.0b1.json")
           "58.0"); reflexivity.
Defined.

(** X10: the format is chosen by the path of the link and not by the
    file.  A value that is not an object raises [TypeError]; an object
    without the first key of the chosen format raises [KeyError], so a file
    of the older format at a link that contains "buildhub" does; in either
    format a version that is not a string raises [AttributeError], and a
    version string whose first field [int] cannot read raises
    [ValueError].  In each case the world is left alone. *)
Theorem read_build_data_errors (E : env) (product json_link : string) (w : world) :
  (forall data,
     (forall fields, data <> JObject fields) ->
     read_build_data E product json_link data w = (w, Raise TypeError)) /\
  (forall fields,
     PyStr.contains "buildhub" json_link = true ->
     field "target" fields = None ->
     read_build_data E product json_link (JObject fields) w = (w, Raise KeyError)) /\
  (forall fields,
     PyStr.contains "buildhub" json_link = false ->
     field "moz_update_channel" fields = None ->
     read_build_data E product json_link (JObject fields) w = (w, Raise KeyError)) /\
  (forall fields target channel version,
     PyStr.contains "buildhub" json_link = true ->
     field "target" fields = Some (JObject target) ->
     field "channel" target = Some channel ->
     field "version" target = Some version ->
     (forall s, version <> JString s) ->
     read_build_data E product json_link (JObject fields) w =
       (w, Raise AttributeError)) /\
  (forall fields channel version,
     PyStr.contains "buildhub" json_link = false ->
     field "moz_update_channel" fields = Some channel ->
     field "moz_app_version" fields = Some version ->
     (forall s, version <> JString s) ->
     read_build_data E product json_link (JObject fields) w =
       (w, Raise AttributeError)) /\
  (forall fields target channel version,
     PyStr.contains "buildhub" json_link = true ->
     field "target" fields = Some (JObject target) ->
     field "channel" target = Some channel ->
     field "version" target = Some (JString version) ->
     label_major version = None ->
     read_build_data E product json_link (JObject fields) w =
       (w, Raise ValueError)) /\
  (forall fields channel version,
     PyStr.contains "buildhub" json_link = false ->
     field "moz_update_channel" fields = Some channel ->
     field "moz_app_version" fields = Some (JString version) ->
     label_major version = None ->
     read_build_data E product json_link (JObject fields) w =
       (w, Raise ValueError)).
Proof.
  repeat split.
  - intros data Hdata. unfold read_build_data, bind.
    destruct (PyStr.contains "buildhub" json_link);
      destruct data; try reflexivity; now destruct (Hdata fields).
  - intros fields Hlink Ht. unfold read_build_data, bind.
    now rewrite Hlink, getitem_field, Ht.
  - intros fields Hlink Hc. unfold read_build_data, bind.
    now rewrite Hlink, getitem_field, Hc.
  - intros fields target channel version Hlink Ht Hc Hv Hs.
    unfold read_build_data, bind.
    rewrite Hlink, getitem_field, Ht, getitem_field, Hc, getitem_field, Hv.
    destruct version; try reflexivity. now destruct (Hs s).
  - intros fields channel version Hlink Hc Hv Hs. unfold read_build_data, bind.
    rewrite Hlink, getitem_field, Hc, getitem_field, Hv.
    destruct version; try reflexivity. now destruct (Hs s).
  - intros fields target channel version Hlink Ht Hc Hv Hm.
    unfold read_build_data, bind.
    rewrite Hlink, getitem_field, Ht, getitem_field, Hc, getitem_field, Hv.
    cbn [str_of ret]. now rewrite Hm.
  - intros fields channel version Hlink Hc Hv Hm. unfold read_build_data, bind.
    rewrite Hlink, getitem_field, Hc, getitem_field, Hv. cbn [str_of ret].
    now rewrite Hm.
Qed.

(** At the link of a buildhub.json: a file of the older format raises
    [KeyError], a version that is a number raises [AttributeError], and the
    version "63" followed by the separator U+001C raises [ValueError]; at
    the link of a file of the older format, the version "beta" raises
    [ValueError]. *)
Lemma read_build_data_errors_witness :
  let buildhub version :=
    JObject [ ("build", JObject [("id", JString "20181015152800")]);
              ("target", JObject [ ("channel", JString "release");
                                   ("version", version) ]) ] in
  read_build_data Example.archive "Firefox" Example.linux_json
    (JObject [ ("buildid", JString "20171103003834");
               ("moz_app_version", JString "58.0");
               ("moz_update_channel", JString "beta") ])
    new_world = (new_world, Raise KeyError) /\
  read_build_data Example.archive "Firefox" Example.linux_json
    (buildhub (JNumber 63)) new_world = (new_world, Raise AttributeError) /\
  read_build_data Example.archive "Firefox" Example.linux_json
    (buildhub (JString ("63" ++ String (ascii_of_nat 28) ".0")))
    new_world = (new_world, Raise ValueError) /\
  read_build_data Example.archive "Firefox"
    (Example.v58 ++ "build1/linux-i686/en-US/firefox-58.0b1.json")
    (JObject [ ("buildid", JString "20171103003834");
               ("moz_app_version", JString "beta");
               ("moz_update_channel", JString "beta") ])
    new_world = (new_world, Raise ValueError).
Proof.
  cbv zeta.
  destruct (read_build_data_errors Example.archive "Firefox" Example.linux_json
              new_world) as (_ & Hkey & _ & Hattr & _ & Hvalue & _).
  destruct (read_build_data_errors Example.archive "Firefox"
              (Example.v58 ++ "build1/linux-i686/en-US/firefox-58.0b1.json")
              new_world) as (_ & _ & _ & _ & _ & _ & Hlegacy).
  split; [apply Hkey; reflexivity|].
  split; [eapply Hattr; [reflexivity.. | discriminate]|].
  split; [eapply Hvalue; reflexivity|].
  eapply Hlegacy; reflexivity.
Defined.

Lemma drop_last_slash (k : string) : PyStr.drop_last (k ++ "/") = k.
Proof.
  induction k as [|c r IH]; [reflexivity|].
  cbn [append PyStr.drop_last]. rewrite IH.
  now destruct r.
Qed.

Lemma insert_rows_sends (E : env) (d : build_data) (version_root rc : string)
  (final_build : bool) (w : world) :
  snd (insert_rows E d version_root rc final_build w) = Ok tt /\
  sent (fst (insert_rows E d version_root rc final_build w)) =
    (sent w ++ matrix_rows d version_root rc final_build)%list /\
  requests (fst (insert_rows E d version_root rc final_build w)) = requests w.
Proof.
  assert (Htwice : forall r1 r2,
    snd (bind (insert_build E r1) (fun _ => insert_build E r2) w) = Ok tt /\
    sent (fst (bind (insert_build E r1) (fun _ => insert_build E r2) w)) =
      (sent w ++ [r1; r2])%list /\
    requests (fst (bind (insert_build E r1) (fun _ => insert_build E r2) w)) =
      requests w).
  { intros r1 r2. destruct (insert_build_run E r1 w) as (H1 & S1 & R1).
    unfold bind. destruct (insert_build E r1 w) as [w1 res1].
    cbn [fst snd] in *. subst res1.
    destruct (insert_build_run E r2 w1) as (H2 & S2 & R2).
    rewrite S2, S1, R2, R1, <- app_assoc. auto. }
  unfold insert_rows, matrix_rows. cbv zeta.
  destruct final_build; destruct (is_release (d_release_channel d));
    first [apply Htwice | apply insert_build_run].
Qed.

(** X11: when the build info file of a link decodes to data that
    [read_build_data] accepts, the walker requests that one file, sends
    exactly the rows of the channel and final-build matrix for these data,
    with the rc version string made of the version root, "rc" and the
    number in the text of the build link, and returns; the build is final
    when it is the last of the builds and its version has a final
    release. *)
Theorem scrape_json_link_sends (E : env) (product version_root : string)
  (is_final_release : bool) (build_count i : nat) (build_link : link)
  (json_link number : string) (data : json) (d : build_data) (w : world) :
  answers E json_link = true ->
  json_loads E (page E json_link) = Some data ->
  read_build_data E product json_link data new_world = (new_world, Ok d) ->
  text build_link = "build" ++ number ++ "/" ->
  let w' := fst (scrape_json_link E product version_root is_final_release
                   build_count i build_link json_link w) in
  snd (scrape_json_link E product version_root is_final_release
         build_count i build_link json_link w) = Ok tt /\
  sent w' =
    (sent w ++
     matrix_rows d version_root (version_root ++ "rc" ++ number)
       (Nat.eqb (i + 1) build_count && is_final_release))%list /\
  requests w' = (requests w ++ [url_of E json_link])%list.
Proof.
  intros Hans Hjson Hdata Htext. cbv zeta.
  assert (Hrun :
    scrape_json_link E product version_root is_final_release build_count i
      build_link json_link w =
    insert_rows E d version_root (version_root ++ "rc" ++ number)
      (Nat.eqb (i + 1) build_count && is_final_release)
      (fst (download E json_link w))).
  { unfold scrape_json_link.
    rewrite (bind_run _ _ _ _ (download_answered E json_link w Hans)).
    rewrite Hjson. unfold bind at 1. cbn [or_raise ret].
    unfold bind.
    rewrite (reads_only_read_build_data E product json_link data
               (fst (download E json_link w))).
    rewrite Hdata. cbn [snd]. rewrite Htext.
    change (PyStr.drop 5 ("build" ++ number ++ "/")) with (number ++ "/").
    now rewrite drop_last_slash. }
  rewrite Hrun.
  destruct (download_run E json_link w) as (_ & (_ & Hs & _) & Hreq).
  destruct (insert_rows_sends E d version_root (version_root ++ "rc" ++ number)
              (Nat.eqb (i + 1) build_count && is_final_release)
              (fst (download E json_link w)))
    as (Hok & Hsent & Hreqs).
  split; [exact Hok|]. rewrite Hsent, Hreqs, Hreq. unfold sent. rewrite Hs. auto.
Qed.

Lemma scrape_json_link_sends_witness :
  let build2 := {| path := Example.v63_build2; text := "build2/" |} in
  map (fun r => (release_channel r, version_string r))
      (sent (fst (scrape_json_link Example.archive "Firefox" "63.0" true 2 1
                    build2 (Example.v63_build2 ++ "linux-i686/en-US/buildhub.json")
                    new_world))) =
  [ (JString "beta", "63.0rc2"); (JString "release", "63.0") ].
Proof.
  cbv zeta.
  destruct (scrape_json_link_sends Example.archive "Firefox" "63.0" true 2 1
              {| path := Example.v63_build2; text := "build2/" |}
              (Example.v63_build2 ++ "linux-i686/en-US/buildhub.json") "2"
              (JObject [ ("build", JObject [("id", JString "20181018182531")]);
                         ("target", JObject [ ("channel", JString "release");
                                              ("version", JString "63.0") ]) ])
              {| d_product_name := "Firefox";
                 d_release_channel := JString "release";
                 d_major_version := 63;
                 d_release_version := "63.0";
                 d_build_id := JString "20181018182531";
                 d_archive_url :=
                   url_of Example.archive
                     (Example.v63_build2 ++ "linux-i686/en-US/buildhub.json") |}
              new_world eq_refl eq_refl eq_refl eq_refl) as (_ & Hsent & _).
  rewrite Hsent. reflexivity.
Defined.

(** X12: when the build info file of a link cannot be decoded, as the
    empty content of a missing file cannot, the walker raises [ValueError]
    after the one request, with nothing sent to the database: nothing in
    the job catches it. *)
Theorem scrape_json_link_undecodable (E : env) (product version_root : string)
  (is_final_release : bool) (build_count i : nat) (build_link : link)
  (json_link : string) (w : world) :
  answers E json_link = true ->
  json_loads E (page E json_link) = None ->
  let w' := fst (scrape_json_link E product version_root is_final_release
                   build_count i build_link json_link w) in
  snd (scrape_json_link E product version_root is_final_release
         build_count i build_link json_link w) = Raise ValueError /\
  same_db w' w /\
  requests w' = (requests w ++ [url_of E json_link])%list.
Proof.
  intros Hans Hjson. cbv zeta.
  assert (Hrun :
    scrape_json_link E product version_root is_final_release build_count i
      build_link json_link w = (fst (download E json_link w), Raise ValueError)).
  { unfold scrape_json_link.
    rewrite (bind_run _ _ _ _ (download_answered E json_link w Hans)).
    now rewrite Hjson. }
  rewrite Hrun. cbn [fst snd].
  destruct (download_run E json_link w) as (_ & Hdb & Hreq). auto.
Qed.

Lemma scrape_json_link_undecodable_witness :
  let build1 := {| path := Example.v63_build1; text := "build1/" |} in
  snd (scrape_json_link Example.archive "Firefox" "63.0" true 2 0 build1
         (Example.v63_build1 ++ "mac/en-US/buildhub.json") new_world) =
  Raise ValueError.
Proof.
  cbv zeta.
  apply (scrape_json_link_undecodable Example.archive "Firefox" "63.0" true 2 0
           {| path := Example.v63_build1; text := "build1/" |}
           (Example.v63_build1 ++ "mac/en-US/buildhub.json") new_world);
    reflexivity.
Defined.

(** ** The version root *)



Lemma append_assoc' (a b c : string) : ((a ++ b) ++ c = a ++ (b ++ c))%string.
Proof. induction a as [|x a IH]; cbn; [reflexivity | now rewrite IH]. Qed.

Lemma split_field (sep : ascii) (a b : string) :
  free_of sep a = true ->
  PyStr.split sep (a ++ String sep b) = a :: PyStr.split sep b.
Proof.
  induction a as [|c r IH]; cbn [append free_of PyStr.split]; intros H.
  - now rewrite Ascii.eqb_refl.
  - apply andb_true_iff in H. destruct H as (Hc & Hr).
    apply negb_true_iff in Hc. rewrite Hc, (IH Hr). reflexivity.
Qed.

Lemma free_of_app (c : ascii) (a b : string) :
  free_of c (a ++ b) = free_of c a && free_of c b.
Proof.
  induction a as [|x a IH]; cbn; [reflexivity|]. now rewrite IH, andb_assoc.
Qed.

Lemma prefix_other_head (sub : string) (a c : ascii) (r : string) :
  Ascii.eqb c a = false -> String.prefix (String a sub) (String c r) = false.
Proof.
  intros H. cbn. destruct (ascii_dec a c) as [->|]; [|reflexivity].
  now rewrite Ascii.eqb_refl in H.
Qed.

Lemma remove_candidates_suffix (v : string) :
  free_of "-" v = true ->
  PyStr.remove_all "-candidates" (v ++ "-candidates") = v.
Proof.
  unfold PyStr.remove_all.
  induction v as [|c r IH]; intros H; [reflexivity|].
  cbn [free_of] in H. apply andb_true_iff in H. destruct H as (Hc & Hr).
  apply negb_true_iff in Hc.
  cbn [append PyStr.remove_from].
  rewrite (prefix_other_head "candidates" "-" c _ Hc), (IH Hr). reflexivity.
Qed.

(** X14: for the paths of the archive, /pub/DIR/candidates/V-candidates/
    with no slash in DIR or V and no hyphen in V, the version root that the
    walker takes from the path is V. *)
Theorem version_root_of_candidates_path (dir v label : string) :
  free_of "/" dir = true ->
  free_of "/" v = true ->
  free_of "-" v = true ->
  version_root_of
    {| path := "/pub/" ++ dir ++ "/candidates/" ++ v ++ "-candidates/";
       text := label |} = Some v.
Proof.
  intros Hdir Hv Hhyphen. unfold version_root_of. cbn [path].
  replace ("/pub/" ++ dir ++ "/candidates/" ++ v ++ "-candidates/")
    with ("" ++ String "/" ("pub" ++ String "/" (dir ++ String "/"
            ("candidates" ++ String "/" ((v ++ "-candidates") ++ String "/" "")))))
    by (cbn; now rewrite append_assoc').
  rewrite !split_field; try reflexivity; try assumption.
  - cbn [nth_error option_map]. now rewrite remove_candidates_suffix.
  - rewrite free_of_app, Hv. reflexivity.
Qed.

Lemma version_root_of_candidates_path_witness :
  version_root_of
    {| path := "/pub/firefox/candidates/63.0b7-candidates/";
       text := "63.0b7-candidates/" |} = Some "63.0b7".
Proof.
  apply (version_root_of_candidates_path "firefox" "63.0b7" "63.0b7-candidates/");
    reflexivity.
Defined.

(** ** A product without candidates *)




(** ** The watermark filter on other labels *)

(** X16: under a watermark other than zero, one candidate label whose first
    field [int] cannot read makes the whole filter raise [ValueError], also
    when that label contains "esr": no candidate is kept. *)
Theorem filter_version_links_raises (wm : Z) (version_links : list link)
  (l : link) (w : world) :
  wm <> 0 ->
  In l version_links ->
  label_major (text l) = None ->
  snd (filter_version_links (Some wm) version_links w) = Raise ValueError.
Proof.
  intros Hwm Hin Hl.
  destruct (filter_version_links_run (Some wm) version_links w) as (Hv & _).
  rewrite Hv. unfold kept_version_links.
  rewrite (proj2 (watermark_some (Some wm) wm) (conj eq_refl Hwm)).
  now rewrite (kept_links_none (wm - 4) version_links l Hin Hl).
Qed.

Lemma filter_version_links_raises_witness :
  let candidate label :=
    {| path := "/pub/firefox/candidates/" ++ label; text := label |} in
  snd (filter_version_links (Some 63)
         [ candidate "63.0b7-candidates/"; candidate "52esr-candidates/" ]
         new_world) = Raise ValueError.
Proof.
  cbv zeta.
  apply (filter_version_links_raises 63 _
           {| path := "/pub/firefox/candidates/52esr-candidates/";
              text := "52esr-candidates/" |} new_world);
    [discriminate | right; now left | reflexivity].
Defined.

Lemma kept_links_any (a b : Z) (links : list link) :
  kept_links a links <> None -> kept_links b links <> None.
Proof.
  induction links as [|x rest IH]; cbn [kept_links]; [discriminate|].
  destruct (label_major (text x)); [|auto].
  destruct (kept_links a rest); [|congruence].
  intros _. destruct (kept_links b rest); [discriminate|].
  exfalso. now apply IH.
Qed.

(** X17: a higher watermark never keeps more.  When the filter returns
    under a watermark, it returns under every higher one, and every
    candidate kept under the higher watermark was kept under the lower. *)
Theorem filter_version_links_monotone (wm1 wm2 : Z) (version_links kept1 : list link)
  (w : world) :
  0 < wm1 <= wm2 ->
  snd (filter_version_links (Some wm1) version_links w) = Ok kept1 ->
  exists kept2,
    snd (filter_version_links (Some wm2) version_links w) = Ok kept2 /\
    incl kept2 kept1.
Proof.
  intros Hwm H1.
  destruct (filter_version_links_run (Some wm1) version_links w) as (Hv1 & _).
  destruct (filter_version_links_run (Some wm2) version_links w) as (Hv2 & _).
  rewrite Hv1 in H1. rewrite Hv2. clear Hv1 Hv2. unfold kept_version_links in *.
  rewrite (proj2 (watermark_some (Some wm1) wm1)) in H1 by (split; [reflexivity | lia]).
  rewrite (proj2 (watermark_some (Some wm2) wm2)) by (split; [reflexivity | lia]).
  destruct (kept_links (wm1 - 4) version_links) as [k1|] eqn:Hk1; [|discriminate H1].
  injection H1 as <-.
  destruct (kept_links (wm2 - 4) version_links) as [k2|] eqn:Hk2.
  - exists k2. split; [reflexivity|]. intros l Hin.
    destruct (kept_links_spec _ _ _ Hk2 l) as (Hlinks & _).
    specialize (Hlinks Hin).
    destruct (proj2 (kept_links_spec _ _ _ Hk2 l) Hlinks) as (m & Hm & Hiff2).
    destruct (proj2 (kept_links_spec _ _ _ Hk1 l) Hlinks) as (m' & Hm' & Hiff1).
    rewrite Hm in Hm'. injection Hm' as <-.
    apply Hiff1. apply Hiff2 in Hin.
    apply orb_true_iff in Hin. apply orb_true_iff.
    destruct Hin as [Hin|Hin]; [left | now right].
    apply Z.leb_le in Hin. apply Z.leb_le. lia.
  - exfalso. apply (kept_links_any (wm1 - 4) (wm2 - 4) version_links);
      [rewrite Hk1; discriminate | exact Hk2].
Qed.

Lemma filter_version_links_monotone_witness :
  let candidate label :=
    {| path := "/pub/firefox/candidates/" ++ label; text := label |} in
  exists kept2,
    snd (filter_version_links (Some 64)
           [ candidate "59.0b1-candidates/"; candidate "60.0-candidates/" ]
           new_world) = Ok kept2 /\
    incl kept2 [ candidate "59.0b1-candidates/"; candidate "60.0-candidates/" ].
Proof.
  cbv zeta.
  apply (filter_version_links_monotone 63 64
           [ {| path := "/pub/firefox/candidates/59.0b1-candidates/";
                text := "59.0b1-candidates/" |};
             {| path := "/pub/firefox/candidates/60.0-candidates/";
                text := "60.0-candidates/" |} ]
           _ new_world); [lia | reflexivity].
Defined.

(** ** More on the order of the builds *)

Lemma sort_by_key_sorted_id {A} (kl : list (Z * A)) :
  StronglySorted (fun a b => fst a <= fst b) kl -> sort_by_key kl = kl.
Proof.
  induction 1 as [|x t Hs IH Hall]; [reflexivity|].
  cbn [sort_by_key]. rewrite IH. destruct t as [|y t']; [reflexivity|].
  cbn [insert_by_key]. inversion Hall as [|? ? Hxy _]; subst.
  apply Z.leb_le in Hxy. now rewrite Hxy.
Qed.

Lemma decorate_sorted (l : list link) :
  forall kl,
    decorate key_for_build_link l = Some kl ->
    StronglySorted key_le l ->
    map snd kl = l /\ StronglySorted (fun a b => fst a <= fst b) kl.
Proof.
  induction l as [|x t IH]; cbn [decorate]; intros kl Hd Hs.
  - injection Hd as <-. split; [reflexivity | constructor].
  - destruct (key_for_build_link x) as [k|] eqn:Hk; [|discriminate Hd].
    destruct (decorate key_for_build_link t) as [kt|] eqn:Hkt; [|discriminate Hd].
    injection Hd as <-. inversion Hs as [|? ? Hst Hall]; subst.
    destruct (IH kt eq_refl Hst) as (Hm & Hsorted).
    split; [cbn; now rewrite Hm|].
    constructor; [exact Hsorted|].
    clear - Hk Hkt Hall. revert kt Hkt.
    induction t as [|y t' IHt]; cbn [decorate]; intros kt Hkt.
    + injection Hkt as <-. constructor.
    + destruct (key_for_build_link y) as [ky|] eqn:Hky; [|discriminate Hkt].
      destruct (decorate key_for_build_link t') as [kt'|] eqn:Hkt'; [|discriminate Hkt].
      injection Hkt as <-. inversion Hall as [|? ? Hxy Hall']; subst.
      constructor; [|now apply IHt].
      unfold key_le in Hxy. rewrite Hk, Hky in Hxy. exact Hxy.
Qed.

(** X18: build links that the listing already gives in ascending order of
    their keys stay as they are: the sort is stable and moves nothing when
    nothing is out of order, builds with equal keys included. *)
Theorem sort_build_links_keeps_sorted (build_links : list link) :
  Forall (fun l => key_for_build_link l <> None) build_links ->
  StronglySorted key_le build_links ->
  sort_build_links build_links = Some build_links.
Proof.
  intros Hkeys Hs.
  destruct (decorate_some key_for_build_link _ Hkeys) as (kl & Hd & _ & _).
  destruct (decorate_sorted build_links kl Hd Hs) as (Hm & Hsorted).
  unfold sort_build_links. rewrite Hd. cbn [option_map].
  now rewrite (sort_by_key_sorted_id kl Hsorted), Hm.
Qed.

Lemma sort_build_links_keeps_sorted_witness :
  let build label := {| path := label; text := label |} in
  sort_build_links [build "build1/"; build "build2/"; build "build02/"] =
  Some [build "build1/"; build "build2/"; build "build02/"].
Proof.
  cbv zeta.
  apply (sort_build_links_keeps_sorted
           [ {| path := "build1/"; text := "build1/" |};
             {| path := "build2/"; text := "build2/" |};
             {| path := "build02/"; text := "build02/" |} ]).
  - repeat constructor; discriminate.
  - repeat constructor; unfold key_le; cbn; lia.
Defined.

Lemma filter_app (p : ascii -> bool) (a b : string) :
  PyStr.filter p (a ++ b) = (PyStr.filter p a ++ PyStr.filter p b)%string.
Proof.
  induction a as [|c r IH]; cbn; [reflexivity|].
  destruct (p c); cbn; now rewrite IH.
Qed.

Lemma filter_decimal (a : string) :
  all_decimal a = true -> PyStr.filter PyStr.isdigit a = a.
Proof.
  induction a as [|c r IH]; cbn; [reflexivity|]. intros H.
  apply andb_true_iff in H. destruct H as (Hc & Hr).
  now rewrite (decimal_isdigit c Hc), (IH Hr).
Qed.

Lemma all_decimal_app (a b : string) :
  all_decimal (a ++ b) = all_decimal a && all_decimal b.
Proof.
  induction a as [|c r IH]; cbn; [reflexivity|]. now rewrite IH, andb_assoc.
Qed.

Lemma decimal_value_app (a b : string) :
  forall acc, decimal_value acc (a ++ b) = decimal_value (decimal_value acc a) b.
Proof. induction a as [|c r IH]; cbn; auto. Qed.

Lemma decimal_value_shift (a : string) :
  forall acc,
    decimal_value acc a =
    (acc * 10 ^ N.of_nat (String.length a) + decimal_value 0 a)%N.
Proof.
  induction a as [|c r IH]; intros acc.
  - cbn. lia.
  - cbn [decimal_value String.length]. rewrite Nat2N.inj_succ, N.pow_succ_r'.
    rewrite (IH (10 * acc + PyStr.digit_value c)%N).
    rewrite (IH (10 * 0 + PyStr.digit_value c)%N). lia.
Qed.

Lemma digit_value_decimal (c : ascii) :
  PyStr.is_decimal c = true -> (PyStr.digit_value c <= 9)%N.
Proof.
  unfold PyStr.is_decimal, PyStr.digit_value. intros H.
  apply andb_true_iff in H. destruct H as (H1 & H2).
  apply N.leb_le in H1. apply N.leb_le in H2. lia.
Qed.

Lemma digit_value_nonzero (c : ascii) :
  PyStr.is_decimal c = true -> Ascii.eqb c "0" = false ->
  (1 <= PyStr.digit_value c)%N.
Proof.
  unfold PyStr.is_decimal, PyStr.digit_value, PyStr.code. intros H Hz.
  apply andb_true_iff in H. destruct H as (H1 & _). apply N.leb_le in H1.
  assert (N_of_ascii c <> 48%N); [|lia].
  intros Heq. apply (f_equal ascii_of_N) in Heq.
  rewrite ascii_N_embedding in Heq. subst c. discriminate Hz.
Qed.

Lemma decimal_value_upper (a : string) :
  all_decimal a = true ->
  (decimal_value 0 a < 10 ^ N.of_nat (String.length a))%N.
Proof.
  induction a as [|c r IH]; intros H; [cbn; lia|].
  cbn [all_decimal] in H. apply andb_true_iff in H. destruct H as (Hc & Hr).
  cbn [decimal_value String.length]. rewrite Nat2N.inj_succ, N.pow_succ_r'.
  rewrite decimal_value_shift. specialize (IH Hr).
  pose proof (digit_value_decimal c Hc). nia.
Qed.

Lemma decimal_value_lower (a : string) :
  canonical_numeral a = true ->
  (10 ^ N.of_nat (Nat.pred (String.length a)) <= decimal_value 0 a)%N.
Proof.
  destruct a as [|c r]; [discriminate|]. unfold canonical_numeral.
  intros H. apply andb_true_iff in H. destruct H as (Hz & Hall).
  apply negb_true_iff in Hz. cbn [all_decimal] in Hall.
  apply andb_true_iff in Hall. destruct Hall as (Hc & _).
  cbn [decimal_value String.length Nat.pred]. rewrite decimal_value_shift.
  pose proof (digit_value_nonzero c Hc Hz). nia.
Qed.

Lemma canonical_all_decimal (a : string) :
  canonical_numeral a = true -> a <> "" /\ all_decimal a = true.
Proof.
  destruct a as [|c r]; [discriminate|]. unfold canonical_numeral.
  intros H. apply andb_true_iff in H. now split.
Qed.

Lemma key_of_build_path (dir a label : string) :
  all_decimal (PyStr.filter PyStr.isdigit dir) = true ->
  canonical_numeral a = true ->
  key_for_build_link {| path := dir ++ "build" ++ a ++ "/"; text := label |} =
  Some (Z.of_N (decimal_value 0 (PyStr.filter PyStr.isdigit dir)
                * 10 ^ N.of_nat (String.length a)
                + decimal_value 0 a)).
Proof.
  intros Hdir Ha. destruct (canonical_all_decimal a Ha) as (Hne & Hall).
  unfold key_for_build_link. cbn [path].
  rewrite filter_app.
  change (PyStr.filter PyStr.isdigit ("build" ++ a ++ "/"))
    with (PyStr.filter PyStr.isdigit (a ++ "/")).
  rewrite filter_app, (filter_decimal a Hall).
  change (PyStr.filter PyStr.isdigit "/") with "".
  replace (a ++ "")%string with a
    by (clear; induction a as [|c r IH]; cbn; [reflexivity | now rewrite <- IH]).
  rewrite int_decimal.
  - now rewrite decimal_value_app, (decimal_value_shift a).
  - destruct a; [congruence|]. now destruct (PyStr.filter PyStr.isdigit dir).
  - now rewrite all_decimal_app, Hdir, Hall.
Qed.

(** X19: the key is made of all the digits of the path, those of the
    directory too.  For two builds of one directory whose numbers are
    written without leading zero the keys are still in the order of the
    build numbers, so that the absolute paths of the archive sort like
    build1/, build2/, build10/. *)
Theorem key_for_build_link_siblings (dir a b label_a label_b : string) :
  all_decimal (PyStr.filter PyStr.isdigit dir) = true ->
  canonical_numeral a = true ->
  canonical_numeral b = true ->
  numeral_value a < numeral_value b ->
  exists ka kb,
    key_for_build_link
      {| path := dir ++ "build" ++ a ++ "/"; text := label_a |} = Some ka /\
    key_for_build_link
      {| path := dir ++ "build" ++ b ++ "/"; text := label_b |} = Some kb /\
    ka < kb.
Proof.
  intros Hdir Ha Hb Hlt. unfold numeral_value in Hlt.
  eexists _, _. split; [now apply key_of_build_path|].
  split; [now apply key_of_build_path|].
  destruct (canonical_all_decimal a Ha) as (_ & Hall_a).
  destruct (canonical_all_decimal b Hb) as (_ & Hall_b).
  pose proof (decimal_value_upper a Hall_a) as Hua.
  pose proof (decimal_value_upper b Hall_b) as Hub.
  pose proof (decimal_value_lower a Ha) as Hla.
  assert (Hlen : (String.length a <= String.length b)%nat).
  { destruct (Nat.le_gt_cases (String.length a) (String.length b)) as [H|H];
      [exact H|]. exfalso.
    assert (Hpow : (10 ^ N.of_nat (String.length b)
                    <= 10 ^ N.of_nat (Nat.pred (String.length a)))%N)
      by (apply N.pow_le_mono_r; lia).
    lia. }
  assert (Hpow : (10 ^ N.of_nat (String.length a)
                  <= 10 ^ N.of_nat (String.length b))%N)
    by (apply N.pow_le_mono_r; lia).
  nia.
Qed.

Lemma key_for_build_link_siblings_witness :
  exists ka kb,
    key_for_build_link
      {| path := "/pub/firefox/candidates/63.0b7-candidates/build2/";
         text := "build2/" |} = Some ka /\
    key_for_build_link
      {| path := "/pub/firefox/candidates/63.0b7-candidates/build10/";
         text := "build10/" |} = Some kb /\
    ka < kb.
Proof.
  apply (key_for_build_link_siblings
           "/pub/firefox/candidates/63.0b7-candidates/" "2" "10"
           "build2/" "build10/"); reflexivity.
Defined.

(** ** A build without build info *)




(** ** The database does not steer the walk *)

Lemma steady_ret {A} (a : A) : steady (ret a) (ret a).
Proof.
  intros w1 w2. split; [reflexivity|]. exists [], []. cbn.
  now rewrite !app_nil_r.
Qed.

Lemma steady_raise {A} (e : exn) : steady (@raise A e) (raise e).
Proof.
  intros w1 w2. split; [reflexivity|]. exists [], []. cbn.
  now rewrite !app_nil_r.
Qed.

Lemma steady_bind {A B} (m1 m2 : M A) (k1 k2 : A -> M B) :
  steady m1 m2 -> (forall a, steady (k1 a) (k2 a)) ->
  steady (bind m1 k1) (bind m2 k2).
Proof.
  intros Hm Hk w1 w2.
  destruct (Hm w1 w2) as (Hres & rs & qs & Hs1 & Hs2 & Hq1 & Hq2).
  unfold bind. destruct (m1 w1) as [w1' r1], (m2 w2) as [w2' r2].
  cbn [fst snd] in *. subst r2. destruct r1 as [a|e].
  - destruct (Hk a w1' w2') as (Hres' & rs' & qs' & Hs1' & Hs2' & Hq1' & Hq2').
    split; [exact Hres'|]. exists (rs ++ rs')%list, (qs ++ qs')%list.
    rewrite Hs1', Hs2', Hq1', Hq2', Hs1, Hs2, Hq1, Hq2, !app_assoc. auto.
  - split; [reflexivity|]. exists rs, qs. auto.
Qed.

Lemma steady_for_each {A} (body1 body2 : A -> M unit) (xs : list A) :
  (forall x, steady (body1 x) (body2 x)) ->
  steady (for_each body1 xs) (for_each body2 xs).
Proof.
  intros H. induction xs as [|x rest IH]; cbn [for_each]; [apply steady_ret|].
  apply steady_bind; auto.
Qed.

Lemma steady_for_fold {A S} (body1 body2 : S -> A -> M S) (xs : list A) :
  (forall acc x, steady (body1 acc x) (body2 acc x)) ->
  forall acc, steady (for_fold body1 xs acc) (for_fold body2 xs acc).
Proof.
  intros H. induction xs as [|x rest IH]; intros acc; cbn [for_fold];
    [apply steady_ret|].
  apply steady_bind; auto.
Qed.

Lemma steady_add_log (r1 r2 : log_record) : steady (add_log r1) (add_log r2).
Proof.
  intros w1 w2. split; [reflexivity|]. exists [], []. cbn.
  now rewrite !app_nil_r.
Qed.

Lemma steady_or_raise {A} (e : exn) (o : option A) :
  steady (or_raise e o) (or_raise e o).
Proof. destruct o; [apply steady_ret | apply steady_raise]. Qed.

Lemma steady_reads_only {A} (m : M A) : reads_only m -> steady m m.
Proof.
  intros H w1 w2. rewrite (H w1), (H w2). split; [reflexivity|].
  exists [], []. cbn. now rewrite !app_nil_r.
Qed.

Lemma steady_download (E : env) (url_path : string) :
  steady (download E url_path) (download E url_path).
Proof.
  intros w1 w2.
  destruct (download_run E url_path w1) as (Hv1 & (_ & Hs1 & _) & Hq1).
  destruct (download_run E url_path w2) as (Hv2 & (_ & Hs2 & _) & Hq2).
  split; [congruence|]. exists [], [url_of E url_path].
  unfold sent. rewrite Hs1, Hs2, Hq1, Hq2, !app_nil_r. auto.
Qed.

Lemma steady_insert_build (E1 E2 : env) (r : row) :
  steady (insert_build E1 r) (insert_build E2 r).
Proof.
  intros w1 w2.
  destruct (insert_build_run E1 r w1) as (H1 & S1 & R1).
  destruct (insert_build_run E2 r w2) as (H2 & S2 & R2).
  split; [congruence|]. exists [r], []. rewrite S1, S2, R1, R2, !app_nil_r. auto.
Qed.

Lemma steady_insert_rows (E1 E2 : env) (d : build_data)
  (version_root rc : string) (final_build : bool) :
  steady (insert_rows E1 d version_root rc final_build)
         (insert_rows E2 d version_root rc final_build).
Proof.
  unfold insert_rows. cbv zeta.
  destruct final_build; destruct (is_release (d_release_channel d));
    repeat first [ apply steady_insert_build
                 | apply steady_bind; [|intros ?] ].
Qed.

Lemma steady_get_json_links (E : env) (build_path : string) :
  steady (get_json_links E build_path) (get_json_links E build_path).
Proof.
  unfold get_json_links. apply steady_bind; [apply steady_download | intros c].
  apply steady_for_fold. intros acc d. unfold json_links_step.
  destruct (existsb _ _); [apply steady_ret|].
  apply steady_bind; [apply steady_download | intros content].
  destruct (negb (nonempty content)); [apply steady_ret|].
  destruct (json_link_of_locale E content); apply steady_ret.
Qed.

Lemma steady_scrape_version (E : env)
  (execute : list row -> row -> exec_outcome) (product : string)
  (final_releases : list string) (l : link) :
  steady (scrape_version E product final_releases l)
         (scrape_version (with_store E execute) product final_releases l).
Proof.
  unfold scrape_version.
  apply steady_bind; [exact (steady_download E (path l)) | intros content].
  apply steady_bind; [apply steady_or_raise | intros version_root].
  cbv zeta.
  apply steady_bind; [exact (steady_or_raise _ _) | intros build_links].
  apply steady_for_each. intros ib. unfold scrape_build. cbv zeta.
  apply steady_bind;
    [exact (steady_get_json_links E (path (snd ib))) | intros [|j js]].
  - apply steady_add_log.
  - apply steady_for_each. intros json_link. unfold scrape_json_link.
    apply steady_bind; [exact (steady_download E json_link) | intros json_file].
    apply steady_bind; [exact (steady_or_raise _ _) | intros data].
    apply steady_bind.
    + exact (steady_reads_only _
               (reads_only_read_build_data E product json_link data)).
    + intros d. apply steady_insert_rows.
Qed.

Lemma steady_filter_version_links (mv : option Z) (links : list link) :
  steady (filter_version_links mv links) (filter_version_links mv links).
Proof.
  intros w1 w2. unfold filter_version_links.
  destruct (watermark mv) as [wm|];
    [|split; [reflexivity|]; exists [], []; cbn; now rewrite !app_nil_r].
  unfold bind, logger_info, add_log. cbn.
  rewrite !filter_m_keep_version_run. cbn. split; [reflexivity|].
  exists [], []. cbn. now rewrite !app_nil_r.
Qed.

(** X21: what the database answers does not steer the walk of a product.
    On the same archive, two walks of the product that start from tables
    with the same maximum major version for it end alike, returning or
    raising the same exception, after the same requests and the same rows
    sent, whatever the two databases do with the statements. *)
Theorem scrape_candidates_whatever_the_store (E : env)
  (execute : list row -> row -> exec_outcome) (product dir : string)
  (w1 w2 : world) :
  max_major_version product (table w1) = max_major_version product (table w2) ->
  snd (scrape_candidates E product dir w1) =
    snd (scrape_candidates (with_store E execute) product dir w2) /\
  exists rs qs,
    sent (fst (scrape_candidates E product dir w1)) = (sent w1 ++ rs)%list /\
    sent (fst (scrape_candidates (with_store E execute) product dir w2)) =
      (sent w2 ++ rs)%list /\
    requests (fst (scrape_candidates E product dir w1)) =
      (requests w1 ++ qs)%list /\
    requests (fst (scrape_candidates (with_store E execute) product dir w2)) =
      (requests w2 ++ qs)%list.
Proof.
  intros Hmax.
  assert (Hshape : forall E' w,
    scrape_candidates E' product dir w =
    bind (download E' ("/pub/" ++ dir ++ "/releases/"))
      (fun c1 =>
         bind (download E' ("/pub/" ++ dir ++ "/candidates/"))
           (fun c2 =>
              bind (filter_version_links
                      (max_major_version product (table w))
                      (version_links_of E' c2))
                   (for_each (scrape_version E' product
                                (final_releases_of E' c1))))) w)
    by reflexivity.
  rewrite (Hshape E w1), (Hshape (with_store E execute) w2), <- Hmax.
  apply steady_bind; [exact (steady_download E _) | intros c1].
  apply steady_bind; [exact (steady_download E _) | intros c2].
  apply steady_bind; [exact (steady_filter_version_links _ _) | intros kept].
  apply steady_for_each. intros l. exact (steady_scrape_version E execute _ _ l).
Qed.

Lemma scrape_candidates_whatever_the_store_witness :
  snd (scrape_candidates Example.archive "Firefox" "firefox" new_world) =
  snd (scrape_candidates
         (with_store Example.archive (fun _ _ => Failure))
         "Firefox" "firefox" new_world).
Proof.
  apply (scrape_candidates_whatever_the_store Example.archive
           (fun _ _ => Failure) "Firefox" "firefox" new_world new_world).
  reflexivity.
Defined.

(** ** The builds before the last *)

Lemma emits_scrape_json_link_rows (E : env) (P : row -> Prop)
  (product version_root : string) (is_final_release : bool)
  (build_count i : nat) (build_link : link) (json_link : string) :
  (forall d,
     Forall P (matrix_rows d version_root
                 (version_root ++ "rc" ++
                  PyStr.drop_last (PyStr.drop 5 (text build_link)))
                 (Nat.eqb (i + 1) build_count && is_final_release))) ->
  emits P (fun _ => True)
        (scrape_json_link E product version_root is_final_release
                          build_count i build_link json_link).
Proof.
  intros H. unfold scrape_json_link.
  eapply emits_bind; [apply emits_download | intros json_file _].
  eapply emits_bind with (Q := fun _ => True);
    [apply emits_or_raise | intros data _].
  eapply emits_bind; [apply emits_read_build_data | intros d _].
  cbv zeta. apply emits_insert_rows, H.
Qed.

(** X22: a build that is not the last of its version directory only
    produces rc rows: every row the walker sends for it has the version
    string made of the version root, "rc" and the number in the text of the
    build link, and none is in the release channel, whatever its build
    info files say and whether or not the version has a final release. *)
Theorem scrape_build_before_last (E : env) (product version_root : string)
  (is_final_release : bool) (build_count i : nat) (build_link : link)
  (w : world) :
  Nat.eqb (i + 1) build_count = false ->
  exists tr,
    statements (fst (scrape_build E product version_root is_final_release
                       build_count (i, build_link) w)) =
      (statements w ++ tr)%list /\
    Forall (fun x =>
              version_string (fst x) =
                version_root ++ "rc" ++
                PyStr.drop_last (PyStr.drop 5 (text build_link)) /\
              release_channel (fst x) <> JString "release")
           tr.
Proof.
  intros Hlast.
  assert (Hemits :
    emits (fun r =>
             version_string r =
               version_root ++ "rc" ++
               PyStr.drop_last (PyStr.drop 5 (text build_link)) /\
             release_channel r <> JString "release")
          (fun _ => True)
          (scrape_build E product version_root is_final_release build_count
                        (i, build_link))).
  { unfold scrape_build. cbv zeta. cbn [fst snd].
    eapply emits_bind; [apply emits_get_json_links | intros [|j js] _].
    - apply emits_add_log.
    - apply emits_for_each. intros json_link _.
      apply emits_scrape_json_link_rows. intros d. rewrite Hlast. cbn [andb].
      unfold matrix_rows. cbv zeta.
      destruct (is_release (d_release_channel d)) eqn:Hr;
        repeat constructor; cbn; try discriminate.
      intros Heq. apply is_release_iff in Heq. congruence. }
  destruct (Hemits w) as (tr & Hs & HP & _). now exists tr.
Qed.

Lemma scrape_build_before_last_witness :
  exists tr,
    statements (fst (scrape_build Example.archive "Firefox" "63.0" true 2
                       (0%nat, {| path := Example.v63_build1; text := "build1/" |})
                       new_world)) = ([] ++ tr)%list /\
    Forall (fun x =>
              version_string (fst x) = "63.0" ++ "rc" ++ "1" /\
              release_channel (fst x) <> JString "release")
           tr.
Proof.
  apply (scrape_build_before_last Example.archive "Firefox" "63.0" true 2 0
           {| path := Example.v63_build1; text := "build1/" |} new_world).
  reflexivity.
Defined.

(** ** The links that are returned *)

Lemma json_link_of_locale_usable (E : env) (locale_contents j : string) :
  json_link_of_locale E locale_contents = Some j ->
  In j (usable_json_links E locale_contents).
Proof.
  unfold json_link_of_locale. fold (usable_json_links E locale_contents).
  destruct (filter (PyStr.endswith "buildhub.json")
                   (usable_json_links E locale_contents)) as [|b rest] eqn:Hb.
  - destruct (usable_json_links E locale_contents) as [|x t]; [discriminate|].
    intros [= <-]. now left.
  - intros [= <-].
    assert (Hin : In b (b :: rest)) by now left.
    rewrite <- Hb in Hin. now apply filter_In in Hin.
Qed.

Lemma usable_json_links_spec (E : env) (locale_contents j : string) :
  In j (usable_json_links E locale_contents) ->
  PyStr.endswith ".json" j = true /\
  PyStr.contains "mozinfo" j = false /\
  PyStr.contains "test_packages" j = false /\
  exists l, In l (get_links E locale_contents) /\ path l = j.
Proof.
  unfold usable_json_links. intros H. apply in_map_iff in H.
  destruct H as (l & <- & Hin). apply filter_In in Hin.
  destruct Hin as (Hin & Hp).
  apply andb_true_iff in Hp. destruct Hp as (Hp & Ht).
  apply andb_true_iff in Hp. destruct Hp as (Hj & Hm).
  apply negb_true_iff in Hm. apply negb_true_iff in Ht.
  repeat split; auto. now exists l.
Qed.

(** X23: every link that [get_json_links] returns ends in ".json" and
    mentions neither "mozinfo" nor "test_packages". *)
Theorem get_json_links_returns_json (E : env) (build_path : string) (w : world)
  (links : list string) :
  snd (get_json_links E build_path w) = Ok links ->
  Forall (fun j => PyStr.endswith ".json" j = true /\
                   PyStr.contains "mozinfo" j = false /\
                   PyStr.contains "test_packages" j = false)
         links.
Proof.
  unfold get_json_links, bind.
  destruct (download E build_path w) as [w1 [c|e]]; [|discriminate].
  generalize (map path (filter (fun l => PyStr.endswith "/" (text l))
                               (get_links E c))).
  intros dirs.
  assert (Hacc : Forall (fun j => PyStr.endswith ".json" j = true /\
                                  PyStr.contains "mozinfo" j = false /\
                                  PyStr.contains "test_packages" j = false)
                        (@nil string)) by constructor.
  revert Hacc. generalize (@nil string). revert w1 links.
  induction dirs as [|d rest IH]; intros w1 links acc Hacc; cbn [for_fold].
  - cbn. now intros [= <-].
  - destruct (json_links_step_run E acc d w1) as (Hv & _). unfold bind.
    destruct (json_links_step E acc d w1) as [w2 res]. cbn [fst snd] in Hv.
    subst res. unfold json_links_step_value.
    destruct (excluded d); [now apply IH|].
    destruct (download_value E (d ++ "en-US/")) as [content|e]; [|discriminate].
    apply IH. apply Forall_app. split; [exact Hacc|].
    destruct (nonempty content); [|constructor].
    destruct (json_link_of_locale E content) as [j|] eqn:Hj; [|constructor].
    constructor; [|constructor].
    apply json_link_of_locale_usable in Hj.
    apply usable_json_links_spec in Hj. tauto.
Qed.

Lemma get_json_links_returns_json_witness :
  Forall (fun j => PyStr.endswith ".json" j = true /\
                   PyStr.contains "mozinfo" j = false /\
                   PyStr.contains "test_packages" j = false)
         [Example.linux_json; Example.win32_json].
Proof.
  apply (get_json_links_returns_json Example.archive Example.v63_build1 new_world).
  reflexivity.
Defined.

(** ** [crashstats/utils.py]: the cleaning of emitted JSON *)

Example json_clean_script :
  _json_clean "{'html': '</script><b>a</b>'}" = "{'html': '<\/script><b>a<\/b>'}".
Proof. reflexivity. Qed.

Lemma prefix_closing (c d : ascii) (r : string) :
  String.prefix "</" (String c (String d r)) =
  Ascii.eqb c "<" && Ascii.eqb d "/".
Proof.
  cbn [String.prefix].
  destruct (ascii_dec "<" c) as [<-|Hc].
  - rewrite Ascii.eqb_refl. cbn [andb].
    destruct (ascii_dec "/" d) as [<-|Hd].
    + rewrite Ascii.eqb_refl. now destruct r.
    + destruct (Ascii.eqb d "/") eqn:Hd'; [|reflexivity].
      apply Ascii.eqb_eq in Hd'. congruence.
  - destruct (Ascii.eqb c "<") eqn:Hc'; [|reflexivity].
    apply Ascii.eqb_eq in Hc'. congruence.
Qed.

Lemma json_clean_cons (c : ascii) (r : string) :
  _json_clean (String c r) =
  match r with
  | String d r' =>
      if Ascii.eqb c "<" && Ascii.eqb d "/"
      then "<\/" ++ _json_clean r'
      else String c (_json_clean r)
  | EmptyString => String c ""
  end.
Proof.
  unfold _json_clean, str_replace.
  destruct r as [|d r'].
  - cbn [replace_from String.prefix]. destruct (ascii_dec "<" c); reflexivity.
  - change (replace_from "</" "<\/" 0 (String c (String d r')))
      with (if String.prefix "</" (String c (String d r'))
            then "<\/" ++ replace_from "</" "<\/" 0 r'
            else String c (replace_from "</" "<\/" 0 (String d r'))).
    now rewrite prefix_closing.
Qed.

Lemma json_clean_head (s : string) (r : string) :
  _json_clean s = String "/" r -> exists r', s = String "/" r'.
Proof.
  destruct s as [|c t]; [discriminate|]. rewrite json_clean_cons.
  destruct t as [|d t'].
  - intros [= -> _]. now exists "".
  - destruct (Ascii.eqb c "<" && Ascii.eqb d "/"); [discriminate|].
    intros [= -> _]. now eexists.
Qed.

Lemma json_clean_no_close_aux (n : nat) :
  forall s, (String.length s <= n)%nat ->
            PyStr.contains "</" (_json_clean s) = false.
Proof.
  induction n as [|n IH]; intros s Hlen.
  - destruct s; [reflexivity | cbn in Hlen; lia].
  - destruct s as [|c r]; [reflexivity|]. cbn [String.length] in Hlen.
    rewrite json_clean_cons. destruct r as [|d r']; [now destruct c as [[] [] [] [] [] [] [] []]|].
    cbn [String.length] in Hlen.
    destruct (Ascii.eqb c "<" && Ascii.eqb d "/") eqn:Hcd.
    + change ("<\/" ++ _json_clean r')
        with (String "<" (String "\" (String "/" (_json_clean r')))).
      cbn [PyStr.contains String.prefix].
      rewrite (IH r') by lia. reflexivity.
    + cbn [PyStr.contains]. rewrite (IH (String d r')) by (cbn; lia).
      rewrite orb_false_r.
      destruct (_json_clean (String d r')) as [|x y] eqn:Hx;
        [cbn [String.prefix]; now destruct (ascii_dec "<" c)|].
      cbn [String.prefix]. destruct (ascii_dec "<" c) as [<-|]; [|reflexivity].
      destruct (ascii_dec "/" x) as [<-|]; [|reflexivity].
      apply json_clean_head in Hx. destruct Hx as (r'' & [= -> _]).
      discriminate Hcd.
Qed.

(** X24: the string that [_json_clean] returns never contains "</",
    whatever the value: no closing tag inside the emitted JSON can end a
    script element. *)
Theorem json_clean_no_closing_tag (value : string) :
  PyStr.contains "</" (_json_clean value) = false.
Proof. apply (json_clean_no_close_aux (String.length value)). lia. Qed.

Lemma json_clean_length_aux (n : nat) :
  forall s, (String.length s <= n)%nat ->
            PyStr.contains "</" s = false -> _json_clean s = s.
Proof.
  induction n as [|n IH]; intros s Hlen Hfree.
  - destruct s; [reflexivity | cbn in Hlen; lia].
  - destruct s as [|c r]; [reflexivity|]. cbn [String.length] in Hlen.
    rewrite json_clean_cons. cbn [PyStr.contains] in Hfree.
    apply orb_false_iff in Hfree. destruct Hfree as (Hp & Hr).
    destruct r as [|d r']; [reflexivity|].
    rewrite prefix_closing in Hp. rewrite Hp.
    now rewrite (IH (String d r')) by (assumption || lia).
Qed.

(** X25: a value without "</" is returned as it is, so that cleaning a
    cleaned value changes nothing. *)
Theorem json_clean_idempotent (value : string) :
  (PyStr.contains "</" value = false -> _json_clean value = value) /\
  _json_clean (_json_clean value) = _json_clean value.
Proof.
  split.
  - apply (json_clean_length_aux (String.length value)). lia.
  - apply (json_clean_length_aux (String.length (_json_clean value))); [lia|].
    apply (json_clean_no_close_aux (String.length value)). lia.
Qed.

Lemma json_clean_idempotent_witness :
  _json_clean "{'a': '<b>'}" = "{'a': '<b>'}".
Proof.
  apply (proj1 (json_clean_idempotent "{'a': '<b>'}")). reflexivity.
Defined.
